(** * fed-exam: the search-filter parser and the dashboard aggregation

    A shallow embedding of the two pieces of logic of the ticket application:

    - the filter parser of [TicketsController.index]
      (app/controllers/tickets_controller.ts, lines 11-37), and
    - the analytics computation of [SecurityDashboard]
      (the [useMemo] body of the dashboard page, lines 60-112).

    JavaScript strings are modelled by [string]: a sequence of code units
    below 256 (the Latin-1 range), on which [trim], [toLowerCase] and the
    regular-expression classes [\S] and [.] are given exactly.  Numbers that
    the code only counts with are [nat]; time values are [Z] (milliseconds
    since the epoch); the one genuinely fractional quantity,
    [avgTicketsPerDay], is computed on IEEE 754 binary64 floats.  The two
    things the code reads from its host, the clock ([Date.now()]) and the
    local time zone, are explicit arguments.

    Further parts of the same files follow: the conditions the controller
    adds to its query, the page list of [Pagination], the recent issues of
    the dashboard, the hide and restore state of [App], and [formatDate]. *)

From Stdlib Require Import ZArith List String Ascii Bool Lia Floats.
From Stdlib Require Import Sorting.Permutation Sorting.Sorted.
From Stdlib Require Import Numbers.DecimalString.
Import ListNotations.

Local Open Scope string_scope.
Local Open Scope Z_scope.

(* ================================================================== *)
(** * JavaScript strings *)
(* ================================================================== *)

Module JsString.

Definition code (c : ascii) : N := N_of_ascii c.

(** LineTerminator code units: LF and CR (U+2028 and U+2029 lie outside the
    modelled range). *)
Definition isLineTerminator (c : ascii) : bool :=
  let n := code c in ((n =? 10) || (n =? 13))%N.

(** WhiteSpace and LineTerminator, the set stripped by [trim] and matched
    by the class [\s]: TAB, LF, VT, FF, CR, SP and NBSP. *)
Definition isWhiteSpace (c : ascii) : bool :=
  let n := code c in
  ((9 <=? n) && (n <=? 13) || (n =? 32) || (n =? 160))%N.

(** [String.prototype.toLowerCase] on one code unit: A-Z, and the
    upper-case letters of Latin-1 (U+00C0 .. U+00DE without the
    multiplication sign U+00D7). *)
Definition lowerChar (c : ascii) : ascii :=
  let n := code c in
  if ((65 <=? n) && (n <=? 90)
      || (192 <=? n) && (n <=? 222) && negb (n =? 215))%N
  then ascii_of_N (n + 32) else c.

Fixpoint toLowerCase (s : string) : string :=
  match s with
  | EmptyString => EmptyString
  | String c s' => String (lowerChar c) (toLowerCase s')
  end.

Fixpoint trimStart (s : string) : string :=
  match s with
  | EmptyString => EmptyString
  | String c s' => if isWhiteSpace c then trimStart s' else s
  end.

Fixpoint trimEnd (s : string) : string :=
  match s with
  | EmptyString => EmptyString
  | String c s' =>
      match trimEnd s' with
      | EmptyString => if isWhiteSpace c then EmptyString else String c EmptyString
      | r => String c r
      end
  end.

Definition trim (s : string) : string := trimEnd (trimStart s).

(** [s.startsWith(p)], returning what follows the prefix. *)
Fixpoint stripPrefix (p s : string) : option string :=
  match p, s with
  | EmptyString, _ => Some s
  | String a p', String b s' =>
      if Ascii.eqb a b then stripPrefix p' s' else None
  | String _ _, EmptyString => None
  end.

Definition isEmpty (s : string) : bool :=
  match s with EmptyString => true | String _ _ => false end.

(** [s.padStart(2, '0')]. *)
Definition padStart2 (s : string) : string :=
  match s with
  | EmptyString => "00"
  | String c EmptyString => String "0" s
  | _ => s
  end.

(** [String(n)] for an integer [n]. *)
Definition ofZ (z : Z) : string := NilZero.string_of_int (Z.to_int z).

(** Code-unit order, [-1], [0] or [1]; on month keys it agrees with
    [localeCompare]. *)
Fixpoint compareUnits (a b : string) : Z :=
  match a, b with
  | EmptyString, EmptyString => 0
  | EmptyString, String _ _ => -1
  | String _ _, EmptyString => 1
  | String x a', String y b' =>
      match N.compare (code x) (code y) with
      | Lt => -1
      | Gt => 1
      | Eq => compareUnits a' b'
      end
  end.

End JsString.

(* ================================================================== *)
(** * The regular expression of the filter grammar *)
(* ================================================================== *)

(** The literal [filterRegex] of line 18: anchored at the start, one of the
    words before, after, reporter (first group), a colon, one or more
    non-blank code units (second group, class \S), any number of code units
    other than line terminators (third group, the dot), and the end of the
    input.  It is written as the backtracking matcher the literal denotes:
    every quantifier is greedy and falls back to a shorter match when what
    follows it fails. *)
Module FilterRegex.
Import JsString.

(** [$]: without the [m] flag, only the end of the input. *)
Definition atEnd (s : string) : option string :=
  if isEmpty s then Some EmptyString else None.

(** Third group and [$]: the dot takes any code unit but a line
    terminator. *)
Fixpoint rest (s : string) : option string :=
  match s with
  | EmptyString => atEnd s
  | String c s' =>
      if isLineTerminator c then atEnd s
      else match rest s' with
           | Some r => Some (String c r)
           | None => atEnd s
           end
  end.

(** Further code units of the second group, then the third group and
    [$]: returns both captures. *)
Fixpoint tokenTail (s : string) : option (string * string) :=
  let stop := option_map (fun r => (EmptyString, r)) (rest s) in
  match s with
  | EmptyString => stop
  | String c s' =>
      if isWhiteSpace c then stop
      else match tokenTail s' with
           | Some (v, r) => Some (String c v, r)
           | None => stop
           end
  end.

(** Second group onwards: at least one non-blank code unit. *)
Definition token (s : string) : option (string * string) :=
  match s with
  | EmptyString => None
  | String c s' =>
      if isWhiteSpace c then None
      else option_map (fun '(v, r) => (String c v, r)) (tokenTail s')
  end.

(** One alternative of the first group, then [:] and the two captures. *)
Definition alternative (q s : string) : option (string * string * string) :=
  match stripPrefix q s with
  | Some (String ":" s') => option_map (fun '(v, r) => (q, v, r)) (token s')
  | _ => None
  end.

Definition qualifiers : list string := ["before"; "after"; "reporter"].

Fixpoint firstMatch (qs : list string) (s : string)
  : option (string * string * string) :=
  match qs with
  | [] => None
  | q :: qs' =>
      match alternative q s with
      | Some m => Some m
      | None => firstMatch qs' s
      end
  end.

(** [searchParam.match(filterRegex)]: the captures
    [(filterType, filterValue, remainingSearch)], or [None] for [null]. *)
Definition exec (s : string) : option (string * string * string) :=
  firstMatch qualifiers s.

End FilterRegex.

(* ================================================================== *)
(** * Dates *)
(* ================================================================== *)

Module JsDate.
Import JsString.

Definition msPerDay : Z := 86400000.
Definition msPerMinute : Z := 60000.

(** The largest time value of a [Date]; beyond it, [TimeClip] gives [NaN]. *)
Definition maxTime : Z := 8640000000000000.

(** A [Date] object: its time value, or [None] for an Invalid Date. *)
Definition Date : Type := option Z.

Definition timeClip (t : Z) : Date :=
  if Z.abs t <=? maxTime then Some t else None.

Definition isLeapYear (y : Z) : bool :=
  (y mod 4 =? 0) && (negb (y mod 100 =? 0) || (y mod 400 =? 0)).

Definition daysInMonth (y m : Z) : Z :=
  if m =? 2 then (if isLeapYear y then 29 else 28)
  else if (m =? 4) || (m =? 6) || (m =? 9) || (m =? 11) then 30
  else 31.

(** Day number (days since 1970-01-01) of a proleptic Gregorian date, month
    1..12: the [MakeDay] of the language specification. *)
Definition daysFromCivil (y m d : Z) : Z :=
  let y' := if m <=? 2 then y - 1 else y in
  let era := y' / 400 in
  let yoe := y' - era * 400 in
  let mp := (m + 9) mod 12 in
  let doy := (153 * mp + 2) / 5 + d - 1 in
  let doe := yoe * 365 + yoe / 4 - yoe / 100 + doy in
  era * 146097 + doe - 719468.

(** Year and month (1..12) of a day number: [YearFromTime] and
    [MonthFromTime] + 1. *)
Definition civilFromDays (z : Z) : Z * Z :=
  let z' := z + 719468 in
  let era := z' / 146097 in
  let doe := z' - era * 146097 in
  let yoe := (doe - doe / 1460 + doe / 36524 - doe / 146096) / 365 in
  let doy := doe - (365 * yoe + yoe / 4 - yoe / 100) in
  let mp := (5 * doy + 2) / 153 in
  let m := if mp <? 10 then mp + 3 else mp - 9 in
  let y := yoe + era * 400 in
  (if m <=? 2 then y + 1 else y, m).

(** The host's time zone, as minutes east of UTC (local time = UTC +
    offset); one offset for all instants. *)
Definition TimeZone : Type := Z.

(** The instant of local midnight of a calendar day. *)
Definition localMidnight (tz : TimeZone) (y m d : Z) : Date :=
  timeClip (daysFromCivil y m d * msPerDay - tz * msPerMinute).

(** [date.setUTCHours(23, 59, 59, 999)]: the UTC day of the instant is
    kept, the time within it replaced; an Invalid Date stays invalid. *)
Definition setUTCHoursEndOfDay (d : Date) : Date :=
  match d with
  | Some t => timeClip (t / msPerDay * msPerDay + (msPerDay - 1))
  | None => None
  end.

(** [new Date(t)] for an integral number [t]. *)
Definition ofTime (t : Z) : Date := timeClip t.

(** [(date.getFullYear(), date.getMonth() + 1)], in local time. *)
Definition localYearMonth (tz : TimeZone) (d : Date) : option (Z * Z) :=
  match d with
  | Some t => Some (civilFromDays ((t + tz * msPerMinute) / msPerDay))
  | None => None
  end.

End JsDate.

(** ** date-fns: [parse(text, 'dd/MM/yyyy', new Date())] and [isValid]

    The library is not part of the repository; this is its behaviour for the
    one pattern the controller uses.  Each numeric token reads as many
    digits as it can, up to its width ([dd] and [MM] one or two, [yyyy] one
    to four); the slashes must be present; what is left must be blank; the
    year must be positive, the month within 1..12 and the day within the
    month.  The result is midnight, local time, of that day; every failure
    gives an Invalid Date.  No field is taken from the reference date. *)
Module DateFns.
Import JsString JsDate.

Definition isDigit (c : ascii) : bool :=
  let n := code c in ((48 <=? n) && (n <=? 57))%N.

Definition digitValue (c : ascii) : Z := Z.of_N (code c) - 48.

(** More digits after a first one: at most [n], greedily. *)
Fixpoint moreDigits (n : nat) (acc : Z) (s : string) : Z * string :=
  match n, s with
  | S n', String c s' =>
      if isDigit c then moreDigits n' (10 * acc + digitValue c) s'
      else (acc, s)
  | _, _ => (acc, s)
  end.

(** [^\d{1,n}] *)
Definition digits (n : nat) (s : string) : option (Z * string) :=
  match s with
  | String c s' =>
      if isDigit c then Some (moreDigits (Nat.pred n) (digitValue c) s')
      else None
  | EmptyString => None
  end.

Definition slash (s : string) : option string :=
  match s with
  | String "/" s' => Some s'
  | _ => None
  end.

Fixpoint allBlank (s : string) : bool :=
  match s with
  | EmptyString => true
  | String c s' => isWhiteSpace c && allBlank s'
  end.

(** The calendar day [(year, month, day)] the text denotes. *)
Definition parseDay (text : string) : option (Z * Z * Z) :=
  match digits 2 text with
  | None => None
  | Some (d, s1) =>
  match slash s1 with
  | None => None
  | Some s2 =>
  match digits 2 s2 with
  | None => None
  | Some (m, s3) =>
  match slash s3 with
  | None => None
  | Some s4 =>
  match digits 4 s4 with
  | None => None
  | Some (y, s5) =>
      if allBlank s5 && (0 <? y) && (1 <=? m) && (m <=? 12)
         && (1 <=? d) && (d <=? daysInMonth y m)
      then Some (y, m, d) else None
  end end end end end.

Definition parse (tz : TimeZone) (text : string) : Date :=
  match parseDay text with
  | Some (y, m, d) => localMidnight tz y m d
  | None => None
  end.

Definition isValid (d : Date) : bool :=
  match d with Some _ => true | None => false end.

End DateFns.

(* ================================================================== *)
(** * The filter parser of the controller *)
(* ================================================================== *)

Module Controller.
Import JsString JsDate.

(** The [filters] object; [None] is [undefined]. *)
Record SearchFilter := mkFilter {
  beforeDate : option Z;
  afterDate : option Z;
  reporterEmail : option string;
  searchValue : option string
}.

(** Lines 11-37 of [index], from the already read [searchParam]. *)
Definition parse (tz : TimeZone) (searchParam : string) : SearchFilter :=
  match FilterRegex.exec searchParam with
  | Some (filterType, filterValue, remainingSearch) =>
      let sv := Some (toLowerCase (trim remainingSearch)) in
      if String.eqb filterType "before" then
        let beforeDate := DateFns.parse tz filterValue in
        mkFilter (if DateFns.isValid beforeDate then beforeDate else None)
                 None None sv
      else if String.eqb filterType "after" then
        let afterDate := DateFns.parse tz filterValue in
        let afterDate := setUTCHoursEndOfDay afterDate in
        mkFilter None
                 (if DateFns.isValid afterDate then afterDate else None)
                 None sv
      else if String.eqb filterType "reporter" then
        mkFilter None None (Some (toLowerCase (trim filterValue))) sv
      else mkFilter None None None sv
  | None =>
      mkFilter None None None (Some (toLowerCase (trim searchParam)))
  end.

(** Line 9 and then the above: from the raw [search] request input. *)
Definition parseRequest (tz : TimeZone) (search : string) : SearchFilter :=
  parse tz (trim search).

(** The filter of the plain-text branch. *)
Definition plainText (s : string) : SearchFilter :=
  mkFilter None None None (Some s).

(** How many of the three qualifier fields are set. *)
Definition isSet {A : Type} (field : option A) : bool :=
  match field with Some _ => true | None => false end.

Definition qualifiersSet (f : SearchFilter) : nat :=
  ((if isSet (beforeDate f) then 1 else 0)
   + (if isSet (afterDate f) then 1 else 0)
   + (if isSet (reporterEmail f) then 1 else 0))%nat.

End Controller.

(* ================================================================== *)
(** * Objects used as counters *)
(* ================================================================== *)

(** The three counting loops write [obj[k] = (obj[k] || 0) + 1] into an
    object created by the literal [{}], whose prototype is
    [Object.prototype], and read the result back with [Object.entries]. *)
Module JsObject.

(** What a counter property holds: a number, or, if the key was first read
    through the prototype, the text of an inherited member followed by
    ones, which is not numeric. *)
Inductive Value :=
| Count (n : nat)
| NotNumeric.

Record Entry := mkEntry { key : string; count : Value }.

(** The own properties, in order of creation. *)
Definition Obj : Type := list Entry.

(** The writable data properties of [Object.prototype]. *)
Definition prototypeMembers : list string :=
  ["constructor"; "hasOwnProperty"; "isPrototypeOf"; "propertyIsEnumerable";
   "toLocaleString"; "toString"; "valueOf"; "__defineGetter__";
   "__defineSetter__"; "__lookupGetter__"; "__lookupSetter__"].

(** Its one accessor property, whose setter ignores a value that is not an
    object. *)
Definition protoAccessor : string := "__proto__".

Definition isPrototypeMember (k : string) : bool :=
  existsb (String.eqb k) prototypeMembers.

Fixpoint getOwn (k : string) (o : Obj) : option Value :=
  match o with
  | [] => None
  | e :: o' => if String.eqb (key e) k then Some (count e) else getOwn k o'
  end.

Fixpoint setOwn (k : string) (v : Value) (o : Obj) : Obj :=
  match o with
  | [] => []
  | e :: o' =>
      if String.eqb (key e) k then mkEntry k v :: o'
      else e :: setOwn k v o'
  end.

(** [o[k] = (o[k] || 0) + 1] *)
Definition increment (o : Obj) (k : string) : Obj :=
  match getOwn k o with
  | Some (Count n) => setOwn k (Count (n + 1)) o
  | Some NotNumeric => setOwn k NotNumeric o
  | None =>
      if String.eqb k protoAccessor then o
      else if isPrototypeMember k then (o ++ [mkEntry k NotNumeric])%list
      else (o ++ [mkEntry k (Count 1)])%list
  end.

Definition isDigit (c : ascii) : bool :=
  let n := N_of_ascii c in ((48 <=? n) && (n <=? 57))%N.

Fixpoint decimal (acc : N) (s : string) : option N :=
  match s with
  | EmptyString => Some acc
  | String c s' =>
      if isDigit c then decimal (10 * acc + (N_of_ascii c - 48)) s'
      else None
  end.

(** An array index: the canonical decimal text of an integer from 0 to
    2^32 - 2. *)
Definition arrayIndex (k : string) : option N :=
  match k with
  | EmptyString => None
  | String "0" EmptyString => Some 0%N
  | String "0" _ => None
  | _ => match decimal 0 k with
         | Some n => if (n <=? 4294967294)%N then Some n else None
         | None => None
         end
  end.

Definition isArrayIndex (k : string) : bool :=
  match arrayIndex k with Some _ => true | None => false end.

Definition indexOf (e : Entry) : N :=
  match arrayIndex (key e) with Some n => n | None => 0%N end.

Fixpoint insertByIndex (e : Entry) (l : list Entry) : list Entry :=
  match l with
  | [] => [e]
  | e' :: l' =>
      if (indexOf e <=? indexOf e')%N then e :: l
      else e' :: insertByIndex e l'
  end.

(** [Object.entries(o)]: the properties whose key is an array index first,
    by ascending index, then the others in order of creation. *)
Definition entries (o : Obj) : list Entry :=
  (fold_right insertByIndex [] (filter (fun e => isArrayIndex (key e)) o)
   ++ filter (fun e => negb (isArrayIndex (key e))) o)%list.

(** [Object.keys(o).length] *)
Definition keysLength (o : Obj) : nat := List.length (entries o).

End JsObject.

(** ** [Array.prototype.sort] with a comparison function

    The sort is stable; [x] goes before [y] when [compareFn(x, y) < 0], and a
    [NaN] result ([None]) counts as [0].  For a consistent comparison
    function the result does not depend on the algorithm; insertion is the
    one written here. *)
Module JsArray.
Section Sort.
Context {A : Type}.
Variable compareFn : A -> A -> option Z.

Definition notAfter (x y : A) : bool :=
  match compareFn x y with
  | Some v => v <=? 0
  | None => true
  end.

Fixpoint insert (x : A) (l : list A) : list A :=
  match l with
  | [] => [x]
  | y :: l' => if notAfter x y then x :: l else y :: insert x l'
  end.

Definition sort (l : list A) : list A := fold_right insert [] l.
End Sort.

(** [a.slice(0, n)] *)
Definition slice0 {A : Type} (n : nat) (l : list A) : list A := firstn n l.
End JsArray.

(* ================================================================== *)
(** * Numbers *)
(* ================================================================== *)

Module JsNumber.
Local Open Scope float_scope.

(** The Number nearest to an integer. *)
Definition ofZ (z : Z) : float :=
  SF2Prim (binary_normalize prec emax z 0 false).

Definition isNegative (x : float) : bool := get_sign x.

Definition min2 (x y : float) : float :=
  if is_nan x || is_nan y then nan
  else if y <? x then y
  else if x <? y then x
  else if isNegative x then x else y.

Definition max2 (x y : float) : float :=
  if is_nan x || is_nan y then nan
  else if x <? y then y
  else if y <? x then x
  else if isNegative x then y else x.

(** [Math.min(...xs)]; [Infinity] for no argument.  The engine's limit on
    the number of spread arguments is not modelled. *)
Definition Math_min (xs : list float) : float := fold_left min2 xs infinity.

(** [Math.max(x, y)] *)
Definition Math_max (x y : float) : float :=
  fold_left max2 [x; y] neg_infinity.

(** [Math.round(x)]: the nearest integer, a tie going up; the sign of a
    zero result is that of [x]. *)
Definition Math_round (x : float) : float :=
  match Prim2SF x with
  | S754_finite s m e =>
      if (0 <=? e)%Z then x
      else
        let unit := (2 ^ (- e))%Z in
        let twice := (if s then - (2 * Z.pos m) else 2 * Z.pos m)%Z in
        let n := ((twice + unit) / (2 * unit))%Z in
        if (n =? 0)%Z then (if s then (-0) else 0) else ofZ n
  | _ => x
  end.
End JsNumber.

(* ================================================================== *)
(** * The analytics of the dashboard *)
(* ================================================================== *)

Module Dashboard.
Import JsString JsDate JsObject JsArray JsNumber.

Record Ticket := mkTicket {
  id : string;
  title : string;
  content : string;
  creationTime : Z;
  userEmail : string;
  labels : option (list string)
}.

Record Stats := mkStats {
  totalTickets : nat;
  uniqueReporters : nat;
  mostCommonLabel : string;
  avgTicketsPerDay : float
}.

(** An element of [labelData] is [{name, value}], of [timeline]
    [{month, count}] and of [topReporters] [{email, count}]: in each case
    the key and the counter of an entry. *)
Record Analytics := mkAnalytics {
  labelData : list Entry;
  timeline : list Entry;
  topReporters : list Entry;
  stats : Stats
}.

(** [(a, b) => b.value - a.value], also [b.count - a.count] *)
Definition byCountDescending (a b : Entry) : option Z :=
  match count b, count a with
  | Count nb, Count na => Some (Z.of_nat nb - Z.of_nat na)
  | _, _ => None
  end.

(** [(a, b) => a.month.localeCompare(b.month)] *)
Definition byMonthAscending (a b : Entry) : option Z :=
  Some (compareUnits (key a) (key b)).

(** Lines 61-66. *)
Definition labelCounts (tickets : list Ticket) : Obj :=
  fold_left
    (fun o ticket =>
       match labels ticket with
       | Some ls => fold_left increment ls o
       | None => o
       end)
    tickets [].

(** Lines 74-75. *)
Definition monthKey (tz : TimeZone) (t : Z) : string :=
  match localYearMonth tz (ofTime t) with
  | Some (y, m) => JsString.ofZ y ++ "-" ++ padStart2 (JsString.ofZ m)
  | None => "NaN-NaN"
  end.

(** Lines 72-77. *)
Definition timelineData (tz : TimeZone) (tickets : list Ticket) : Obj :=
  fold_left (fun o ticket => increment o (monthKey tz (creationTime ticket)))
            tickets [].

(** Lines 84-87. *)
Definition reporterCounts (tickets : list Ticket) : Obj :=
  fold_left (fun o ticket => increment o (userEmail ticket)) tickets [].

(** Lines 97-99, before the rounding of line 109. *)
Definition ticketsPerDay (now : float) (tickets : list Ticket) : float :=
  (JsNumber.ofZ (Z.of_nat (List.length tickets))
   / Math_max 1
       ((now - Math_min (map (fun t => JsNumber.ofZ (creationTime t)) tickets))
        / 86400000))%float.

(** [labelData[0]?.name || 'None'] *)
Definition firstNameOrNone (l : list Entry) : string :=
  match l with
  | e :: _ => if isEmpty (key e) then "None" else key e
  | [] => "None"
  end.

(** The body of [useMemo]; [now] is what [Date.now()] returns. *)
Definition aggregate (now : float) (tz : TimeZone) (tickets : list Ticket)
  : Analytics :=
  let labelData := sort byCountDescending (entries (labelCounts tickets)) in
  let timeline := sort byMonthAscending (entries (timelineData tz tickets)) in
  let reporters := reporterCounts tickets in
  let topReporters :=
    slice0 10 (sort byCountDescending (entries reporters)) in
  let avg := ticketsPerDay now tickets in
  mkAnalytics labelData timeline topReporters
    (mkStats (List.length tickets)
             (keysLength reporters)
             (firstNameOrNone labelData)
             (Math_round (avg * 10) / 10)%float).

(** A ticket with given reporter, creation time and labels. *)
Definition ticket (email : string) (t : Z) (ls : list string) : Ticket :=
  mkTicket "" "" "" t email (Some ls).

End Dashboard.

(* ================================================================== *)
(** * Vocabulary of the statements *)
(* ================================================================== *)

Module Grammar.
Import JsString.

(** A token: one or more code units, none of them blank. *)
Fixpoint noBlank (v : string) : bool :=
  match v with
  | EmptyString => true
  | String c v' => negb (isWhiteSpace c) && noBlank v'
  end.

Definition isToken (v : string) : bool := negb (isEmpty v) && noBlank v.

(** What may follow a token: nothing, or text that starts with a blank;
    a remainder that reaches the third group has no line terminator. *)
Definition startsBlank (r : string) : bool :=
  match r with
  | EmptyString => true
  | String c _ => isWhiteSpace c
  end.

Fixpoint noLineTerminator (r : string) : bool :=
  match r with
  | EmptyString => true
  | String c r' => negb (isLineTerminator c) && noLineTerminator r'
  end.

(** The string starts with the qualifier word [q], a colon and a
    non-empty token. *)
Definition startsWith (q s : string) : bool :=
  match stripPrefix (q ++ ":") s with
  | Some (String c _) => negb (isWhiteSpace c)
  | _ => false
  end.

Definition startsWithQualifier (s : string) : bool :=
  existsb (fun q => startsWith q s) FilterRegex.qualifiers.

(** [w] is a qualifier word in another letter case. *)
Definition caseVariantOf (q w : string) : Prop :=
  toLowerCase w = q /\ w <> q.

(** The last millisecond of a UTC calendar day. *)
Definition endOfDayUTC (y m d : Z) : Z :=
  JsDate.daysFromCivil y m d * JsDate.msPerDay + (JsDate.msPerDay - 1).

End Grammar.

Module Counting.
Import JsObject.

(** The distinct elements, in order of first occurrence. *)
Fixpoint firstSeen (l : list string) : list string :=
  match l with
  | [] => []
  | x :: l' => x :: filter (fun y => negb (String.eqb y x)) (firstSeen l')
  end.

Definition occurrences (k : string) (l : list string) : nat :=
  count_occ string_dec l k.

(** One entry per distinct key, in order of first occurrence, holding the
    number of occurrences. *)
Definition tally (l : list string) : list Entry :=
  map (fun k => mkEntry k (Count (occurrences k l))) (firstSeen l).

(** The key is not the name of a property of [Object.prototype]. *)
Definition notInherited (k : string) : bool :=
  negb (isPrototypeMember k) && negb (String.eqb k protoAccessor).

Definition hasCount (n : nat) (e : Entry) : bool :=
  match count e with
  | Count m => Nat.eqb m n
  | NotNumeric => false
  end.

(** [a] may stand before [b] in a list sorted by descending count. *)
Definition descending (a b : Entry) : Prop :=
  match count a, count b with
  | Count na, Count nb => (nb <= na)%nat
  | _, _ => False
  end.

(** The counter of the entry is a number. *)
Definition numeric (e : Entry) : Prop :=
  match count e with
  | Count _ => True
  | NotNumeric => False
  end.

Definition notArrayIndex (k : string) : bool := negb (isArrayIndex k).

(** The labels of a ticket, none when the field is absent. *)
Definition labelsOf (t : Dashboard.Ticket) : list string :=
  match Dashboard.labels t with Some ls => ls | None => [] end.

Definition allLabels (tickets : list Dashboard.Ticket) : list string :=
  flat_map labelsOf tickets.

Definition allReporters (tickets : list Dashboard.Ticket) : list string :=
  map Dashboard.userEmail tickets.

End Counting.

Module Samples.
Import Dashboard.

(** Fifteen tickets of twelve reporters, one of them seen four times. *)
Definition fifteenTickets (second third fourth : string) : list Ticket :=
  map (fun email => ticket email 1700000000000 [])
    ["ann@x.com"; second; "ann@x.com"; third; fourth; "ann@x.com";
     "c@x.com"; "d@x.com"; "e@x.com"; "f@x.com"; "ann@x.com"; "g@x.com";
     "h@x.com"; "i@x.com"; "j@x.com"].

End Samples.

Module Totals.
Import JsObject.

(** The number an entry holds, none for one that is not numeric. *)
Definition countValue (e : Entry) : nat :=
  match count e with
  | Count n => n
  | NotNumeric => 0
  end.

Definition totalCount (l : list Entry) : nat := list_sum (map countValue l).

(** The month keys of the tickets, in order. *)
Definition monthKeys (tz : JsDate.TimeZone) (tickets : list Dashboard.Ticket)
  : list string :=
  map (fun t => Dashboard.monthKey tz (Dashboard.creationTime t)) tickets.

(** [a] may stand before [b] in the timeline. *)
Definition monthNotAfter (a b : Entry) : Prop :=
  JsString.compareUnits (key a) (key b) <= 0.

(** The text starts like a month key: with a digit, a minus sign or the
    letter N. *)
Definition startsLikeMonthKey (k : string) : bool :=
  match k with
  | String c _ =>
      isDigit c || Ascii.eqb c "-" || Ascii.eqb c "N"
  | EmptyString => false
  end.

End Totals.

(* ================================================================== *)
(** * [formatDate] *)
(* ================================================================== *)

(** [new Date(t).toISOString().replace('T', ' ')] followed by the removal of
    the milliseconds and the final Z; [None] is the [RangeError] that
    [toISOString] throws for an Invalid Date. *)
Module IsoDate.
Import JsString JsDate.

Definition digit (n : Z) : ascii := ascii_of_N (48 + Z.to_N (n mod 10)).

(** The last [w] decimal digits of [n], most significant first. *)
Fixpoint fixedDigits (w : nat) (n : Z) : string :=
  match w with
  | O => EmptyString
  | S w' => fixedDigits w' (n / 10) ++ String (digit n) EmptyString
  end.

(** [DateFromTime], for a day number. *)
Definition dayOfMonth (z : Z) : Z :=
  let z' := z + 719468 in
  let era := z' / 146097 in
  let doe := z' - era * 146097 in
  let yoe := (doe - doe / 1460 + doe / 36524 - doe / 146096) / 365 in
  let doy := doe - (365 * yoe + yoe / 4 - yoe / 100) in
  let mp := (5 * doy + 2) / 153 in
  doy - (153 * mp + 2) / 5 + 1.

Definition yearOf (t : Z) : Z := fst (civilFromDays (t / msPerDay)).
Definition monthOf (t : Z) : Z := snd (civilFromDays (t / msPerDay)).

(** Four digits for the years 0 to 9999, a sign and six digits otherwise. *)
Definition yearText (y : Z) : string :=
  if (0 <=? y) && (y <=? 9999) then fixedDigits 4 y
  else String (if y <? 0 then "-"%char else "+"%char)
              (fixedDigits 6 (Z.abs y)).

Definition dateText (t : Z) : string :=
  yearText (yearOf t) ++ "-" ++ fixedDigits 2 (monthOf t)
  ++ "-" ++ fixedDigits 2 (dayOfMonth (t / msPerDay)).

Definition timeText (t : Z) : string :=
  fixedDigits 2 (t / 3600000 mod 24) ++ ":" ++ fixedDigits 2 (t / 60000 mod 60)
  ++ ":" ++ fixedDigits 2 (t / 1000 mod 60).

Definition toISOString (d : Date) : option string :=
  match d with
  | Some t =>
      Some (dateText t ++ "T" ++ timeText t ++ "."
            ++ fixedDigits 3 (t mod 1000) ++ "Z")
  | None => None
  end.

(** [s.replace(c, by)] for a one-character pattern: the first occurrence. *)
Fixpoint replaceFirst (c : ascii) (by_ : string) (s : string) : string :=
  match s with
  | EmptyString => EmptyString
  | String x s' =>
      if Ascii.eqb x c then by_ ++ s' else String x (replaceFirst c by_ s')
  end.

(** The whole of [s] is a dot, three digits and a Z. *)
Definition isMillisTail (s : string) : bool :=
  match s with
  | String "." (String a (String b (String c (String "Z" EmptyString)))) =>
      DateFns.isDigit a && DateFns.isDigit b && DateFns.isDigit c
  | _ => false
  end.

(** [s.replace(re, '')] for the pattern of a dot, three digits and a Z at
    the end of the input: the first position from which it matches. *)
Fixpoint dropMillis (s : string) : string :=
  if isMillisTail s then EmptyString
  else match s with
       | EmptyString => EmptyString
       | String x s' => String x (dropMillis s')
       end.

(** The code unit [c] does not occur in [s]. *)
Fixpoint lacks (c : ascii) (s : string) : bool :=
  match s with
  | EmptyString => true
  | String x s' => negb (Ascii.eqb x c) && lacks c s'
  end.

Definition formatDate (unixTimestemp : Z) : option string :=
  option_map (fun iso => dropMillis (replaceFirst "T" " " iso))
             (toISOString (ofTime unixTimestemp)).

End IsoDate.

(* ================================================================== *)
(** * The page list of [Pagination] *)
(* ================================================================== *)

(** The array [pages] that [Pagination] builds before rendering, for
    integral [current] and [total]; [None] is the [null] returned when there
    is at most one page. *)
Module Pagination.

Inductive Item :=
| Page (n : Z)
| Ellipsis.

(** [for (let i = 1; i <= total; i++) pages.push(i)] *)
Definition upTo (total : Z) : list Item :=
  map (fun i => Page (Z.of_nat i)) (seq 1 (Z.to_nat total)).

Definition pages (current total : Z) : option (list Item) :=
  if total <=? 1 then None
  else if total <=? 7 then Some (upTo total)
  else
    Some (Page 1 ::
          (if current <=? 3 then
             [Page 2; Page 3; Page 4; Ellipsis; Page total]
           else if total - 2 <=? current then
             [Ellipsis; Page (total - 3); Page (total - 2); Page (total - 1);
              Page total]
           else
             [Ellipsis; Page (current - 1); Page current; Page (current + 1);
              Ellipsis; Page total])).

(** [current === page]: the button drawn as selected. *)
Definition selected (current : Z) (item : Item) : bool :=
  match item with
  | Page n => current =? n
  | Ellipsis => false
  end.

(** The items after a page [prev] run up to [last]: a page follows its
    predecessor directly, an ellipsis stands for at least one page and is
    followed by a page. *)
Fixpoint runsTo (prev : Z) (items : list Item) (last : Z) : Prop :=
  match items with
  | [] => prev = last
  | Page n :: rest => n = prev + 1 /\ runsTo n rest last
  | Ellipsis :: Page n :: rest => prev + 2 <= n /\ runsTo n rest last
  | Ellipsis :: _ => False
  end.

(** The items abbreviate the pages 1 to [total]. *)
Definition abbreviates (items : list Item) (total : Z) : Prop :=
  match items with
  | Page 1 :: rest => runsTo 1 rest total
  | _ => False
  end.

End Pagination.

(* ================================================================== *)
(** * The recent issues of the dashboard *)
(* ================================================================== *)

(** The list under the heading Recent Issues: [tickets.sort(...)] by
    descending creation time, [slice(0, 5)], and for each ticket the first
    two labels and the number of the others. *)
Module Recent.
Import Dashboard JsArray.

(** [(a, b) => b.creationTime - a.creationTime] *)
Definition byNewest (a b : Ticket) : option Z :=
  Some (creationTime b - creationTime a).

Definition recent (tickets : list Ticket) : list Ticket :=
  slice0 5 (sort byNewest tickets).

(** [ticket.labels.slice(0, 2)] *)
Definition shownLabels (ls : list string) : list string := slice0 2 ls.

(** The badge [+n], drawn when [ticket.labels.length > 2]. *)
Definition moreLabels (ls : list string) : option nat :=
  if (2 <? List.length ls)%nat then Some (List.length ls - 2)%nat else None.

(** One row; reading [slice] of an absent [labels] is a [TypeError],
    [None]. *)
Definition row (t : Ticket) : option (list string * option nat) :=
  match labels t with
  | Some ls => Some (shownLabels ls, moreLabels ls)
  | None => None
  end.

Fixpoint rows (ts : list Ticket) : option (list (list string * option nat)) :=
  match ts with
  | [] => Some []
  | t :: ts' =>
      match row t with
      | None => None
      | Some r =>
          match rows ts' with
          | None => None
          | Some rs => Some (r :: rs)
          end
      end
  end.

Definition render (tickets : list Ticket) :=
  rows (recent tickets).

(** [a] may stand before [b]: it is not older. *)
Definition newestFirst (a b : Ticket) : Prop :=
  creationTime b <= creationTime a.

Definition createdAt (t : Z) (x : Ticket) : bool := creationTime x =? t.

End Recent.

(* ================================================================== *)
(** * The state of the page *)
(* ================================================================== *)

(** The state of [App] ([search], [hiddenItems], [itemsToShow]) and its
    handlers under fixed props; [data] is [tickets.data].  The visits that
    [handleSearch] and [handlePageChange] start replace the props; they
    are the events of [Visits] below. *)
Module App.
Import JsString Dashboard.

Record State := mkState {
  search : string;
  hiddenItems : list Ticket;
  itemsToShow : list Ticket
}.

(** The three [useState] initial values. *)
Definition initial (data : list Ticket) : State := mkState "" [] data.

Definition hasId (i : string) (item : Ticket) : bool := String.eqb (id item) i.

Definition handleHideItem (st : State) (i : string) : State :=
  match find (hasId i) (itemsToShow st) with
  | None => st
  | Some itemToBeHidden =>
      mkState (search st)
              (hiddenItems st ++ [itemToBeHidden])%list
              (filter (fun item => negb (hasId i item)) (itemsToShow st))
  end.

Definition handleRestoreItems (data : list Ticket) (st : State) : State :=
  mkState (search st) [] data.

(** [setSearch(value)], the synchronous part of [handleSearch]; the
    [router.get] of its timer is answered later, see [Visits.step]. *)
Definition setSearch (st : State) (value : string) : State :=
  mkState value (hiddenItems st) (itemsToShow st).

(** [s.includes(sub)] *)
Fixpoint includes (s sub : string) : bool :=
  match stripPrefix sub s with
  | Some _ => true
  | None =>
      match s with
      | EmptyString => false
      | String _ s' => includes s' sub
      end
  end.

(** [(t.title.toLowerCase() + t.content.toLowerCase())
      .includes(search.toLowerCase())] *)
Definition matchesSearch (value : string) (t : Ticket) : bool :=
  includes (toLowerCase (title t) ++ toLowerCase (content t))
           (toLowerCase value).

(** [hiddenItems.some((hidden) => hidden.id === t.id)] *)
Definition isHidden (st : State) (t : Ticket) : bool :=
  existsb (fun hidden => String.eqb (id hidden) (id t)) (hiddenItems st).

(** [ticketData] of the page with the dashboard: from [tickets.data]. *)
Definition ticketData (data : list Ticket) (st : State) : list Ticket :=
  filter (fun t => negb (isHidden st t))
         (filter (matchesSearch (search st)) data).

(** What the user does while the props stay as they are. *)
Inductive Event :=
| Hide (i : string)
| Restore
| TypeSearch (value : string).

Definition step (data : list Ticket) (st : State) (e : Event) : State :=
  match e with
  | Hide i => handleHideItem st i
  | Restore => handleRestoreItems data st
  | TypeSearch value => setSearch st value
  end.

Definition run (data : list Ticket) (events : list Event) : State :=
  fold_left (step data) events (initial data).

(** What holds of the state whatever the user did. *)
Definition consistent (data : list Ticket) (st : State) : Prop :=
  itemsToShow st = filter (fun t => negb (isHidden st t)) data
  /\ NoDup (map id (hiddenItems st))
  /\ incl (hiddenItems st) data.

End App.

(* ================================================================== *)
(** * The dashboard page over its visits *)
(* ================================================================== *)

(** The page of part_000 with its props.  [handleSearch] asks for the
    tickets with [preserveState: false], so the answer mounts the component
    anew; [handlePageChange] asks with [preserveState: true], so the answer
    replaces [tickets] and leaves the state as it is.  An answer may arrive
    between any two things the user does, with whatever tickets the server
    sent.  The older page inertia/pages/index.tsx asks for its search with
    [preserveState: true]; its visits are not among these events. *)
Module Visits.
Import Dashboard.

Record Page := mkPage {
  data : list Ticket;
  state : App.State
}.

(** The component mounted with [tickets.data]. *)
Definition mount (tickets : list Ticket) : Page :=
  mkPage tickets (App.initial tickets).

(** The answer to a [router.get] arrives. *)
Definition visit (preserveState : bool) (tickets : list Ticket) (p : Page)
  : Page :=
  if preserveState then mkPage tickets (state p) else mount tickets.

Inductive Event :=
| User (e : App.Event)
| SearchLoaded (tickets : list Ticket)
| PageLoaded (tickets : list Ticket).

Definition step (p : Page) (e : Event) : Page :=
  match e with
  | User u => mkPage (data p) (App.step (data p) (state p) u)
  | SearchLoaded tickets => visit false tickets p
  | PageLoaded tickets => visit true tickets p
  end.

Definition run (tickets : list Ticket) (events : list Event) : Page :=
  fold_left step events (mount tickets).

(** Whether [itemsToShow] was set from the props of the moment: it is so
    after a mount and after Restore, and no longer after a page change. *)
Definition settles (b : bool) (e : Event) : bool :=
  match e with
  | User App.Restore => true
  | User _ => b
  | SearchLoaded _ => true
  | PageLoaded _ => false
  end.

Definition upToDate (events : list Event) : bool :=
  fold_left settles events true.

End Visits.

(* ================================================================== *)
(** * The query of the controller *)
(* ================================================================== *)

(** Lines 39-59 of [index]: the conditions added to [Ticket.query()], in
    order, as data. *)
Module Query.
Import JsString Controller.

Inductive Clause :=
| TitleOrContentLike (text : string)
| CreatedBefore (t : Z)
| CreatedAfter (t : Z)
| ReporterIs (email : string).

(** [if (filters.x)]: a string counts when it is not empty, a [Date]
    always. *)
Definition whenText (field : option string) (c : string -> Clause)
  : list Clause :=
  match field with
  | Some s => if isEmpty s then [] else [c s]
  | None => []
  end.

Definition whenDate (field : option Z) (c : Z -> Clause) : list Clause :=
  match field with
  | Some d => [c d]
  | None => []
  end.

Definition build (f : SearchFilter) : list Clause :=
  (whenText (searchValue f) TitleOrContentLike
   ++ whenDate (beforeDate f) CreatedBefore
   ++ whenDate (afterDate f) CreatedAfter
   ++ whenText (reporterEmail f) ReporterIs)%list.

End Query.

(* ================================================================== *)
(** * Examples *)
(* ================================================================== *)

Import JsString.

Example parse_before_urgent :
  Controller.parse 0 "before:31/12/2023 urgent"
  = Controller.mkFilter (Some 1703980800000) None None (Some "urgent").
Proof. reflexivity. Qed.

Example parse_reporter_bug :
  Controller.parse 0 "reporter:Alice@Example.com bug"
  = Controller.mkFilter None None (Some "alice@example.com") (Some "bug").
Proof. reflexivity. Qed.

Example parse_after :
  Controller.parse 0 "after:01/01/2024"
  = Controller.mkFilter None (Some 1704153599999) None (Some "").
Proof. reflexivity. Qed.

Example parse_after_east :
  Controller.parse 60 "after:01/01/2024"
  = Controller.mkFilter None (Some 1704067199999) None (Some "").
Proof. reflexivity. Qed.

Example parse_empty_token :
  Controller.parse 0 "before: foo" = Controller.plainText "before: foo".
Proof. reflexivity. Qed.

Example parse_bad_date :
  Controller.parse 0 "before:not-a-date foo" = Controller.plainText "foo".
Proof. reflexivity. Qed.

Example parse_newline :
  Controller.parse 0 ("before:01/01/2024 a" ++ String (ascii_of_nat 10) "b")
  = Controller.plainText ("before:01/01/2024 a" ++ String (ascii_of_nat 10) "b").
Proof. reflexivity. Qed.

Example civil_roundtrip :
  JsDate.civilFromDays (JsDate.daysFromCivil 2024 2 29) = (2024, 2)
  /\ JsDate.daysFromCivil 1970 1 1 = 0
  /\ JsDate.civilFromDays (-1) = (1969, 12)
  /\ ofZ (-5) = "-5" /\ ofZ 0 = "0" /\ ofZ 2024 = "2024".
Proof. repeat split; reflexivity. Qed.

Import JsObject Dashboard.

Example ex_round :
  JsNumber.Math_round 2.5 = 3%float /\ JsNumber.Math_round (-2.5) = (-2)%float
  /\ JsNumber.Math_round 0.25 = 0%float /\ JsNumber.Math_round 667.25 = 667%float
  /\ JsNumber.Math_round (-0.5) = (-0)%float /\ JsNumber.Math_round 0.5 = 1%float
  /\ JsNumber.ofZ 1704153599999 = 1704153599999%float.
Proof. repeat split; reflexivity. Qed.


(* ================================================================== *)
(** * Strings: trimming and lower-casing *)
(* ================================================================== *)

#[local] Arguments isWhiteSpace : simpl never.
#[local] Arguments isLineTerminator : simpl never.
#[local] Arguments lowerChar : simpl never.

Section StringFacts.

Lemma isWhiteSpace_lowerChar (c : ascii) :
  isWhiteSpace (lowerChar c) = isWhiteSpace c.
Proof. destruct c as [[] [] [] [] [] [] [] []]; reflexivity. Qed.

Lemma trimStart_toLowerCase (s : string) :
  trimStart (toLowerCase s) = toLowerCase (trimStart s).
Proof.
  induction s as [|c s IH]; simpl; [reflexivity|].
  rewrite isWhiteSpace_lowerChar.
  destruct (isWhiteSpace c); [exact IH | reflexivity].
Qed.

Lemma trimEnd_toLowerCase (s : string) :
  trimEnd (toLowerCase s) = toLowerCase (trimEnd s).
Proof.
  induction s as [|c s IH]; simpl; [reflexivity|].
  rewrite IH, isWhiteSpace_lowerChar.
  destruct (trimEnd s); simpl; [|reflexivity].
  destruct (isWhiteSpace c); reflexivity.
Qed.

(** Lower-casing neither creates nor removes blanks, so it commutes with
    [trim]. *)
Lemma trim_toLowerCase (s : string) :
  trim (toLowerCase s) = toLowerCase (trim s).
Proof.
  unfold trim. now rewrite trimStart_toLowerCase, trimEnd_toLowerCase.
Qed.

Lemma trimEnd_cons (c : ascii) (s : string) :
  trimEnd (String c s)
  = match trimEnd s with
    | EmptyString =>
        if isWhiteSpace c then EmptyString else String c EmptyString
    | r => String c r
    end.
Proof. reflexivity. Qed.

Lemma trimEnd_idempotent (s : string) : trimEnd (trimEnd s) = trimEnd s.
Proof.
  induction s as [|c s IH]; [reflexivity|].
  rewrite trimEnd_cons.
  destruct (trimEnd s) as [|d r] eqn:E.
  - destruct (isWhiteSpace c) eqn:Hc; [reflexivity|].
    rewrite trimEnd_cons. cbn [trimEnd]. now rewrite Hc.
  - rewrite trimEnd_cons, IH. reflexivity.
Qed.

Lemma trimStart_trimEnd (s : string) :
  trimStart (trimEnd (trimStart s)) = trimEnd (trimStart s).
Proof.
  induction s as [|c s IH]; simpl; [reflexivity|].
  destruct (isWhiteSpace c) eqn:Hc; [exact IH|].
  simpl. destruct (trimEnd s); rewrite ?Hc; simpl; now rewrite Hc.
Qed.

Lemma trim_idempotent (s : string) : trim (trim s) = trim s.
Proof.
  unfold trim. now rewrite trimStart_trimEnd, trimEnd_idempotent.
Qed.

Lemma stripPrefix_app (p p' s : string) :
  stripPrefix (p ++ p') s
  = match stripPrefix p s with
    | Some s' => stripPrefix p' s'
    | None => None
    end.
Proof.
  revert s; induction p as [|a p IH]; intros s; simpl; [reflexivity|].
  destruct s as [|b s]; [reflexivity|].
  destruct (Ascii.eqb a b); [apply IH | reflexivity].
Qed.

Lemma stripPrefix_self (p s : string) : stripPrefix p (p ++ s) = Some s.
Proof.
  induction p as [|a p IH]; simpl; [reflexivity|].
  now rewrite Ascii.eqb_refl.
Qed.

End StringFacts.

(* ================================================================== *)
(** * The regular expression *)
(* ================================================================== *)

Section RegexFacts.
Import Grammar.

Lemma rest_noLineTerminator (r : string) :
  noLineTerminator r = true -> FilterRegex.rest r = Some r.
Proof.
  induction r as [|c r IH]; simpl; [reflexivity|].
  destruct (isLineTerminator c); simpl; [discriminate|].
  intros H. now rewrite (IH H).
Qed.

Lemma tokenTail_app (v r : string) :
  noBlank v = true -> startsBlank r = true -> noLineTerminator r = true ->
  FilterRegex.tokenTail (v ++ r) = Some (v, r).
Proof.
  intros Hv Hb Hr. induction v as [|c v IH]; simpl.
  - destruct r as [|c r].
    + reflexivity.
    + simpl in Hb. cbn [FilterRegex.tokenTail]. rewrite Hb.
      now rewrite (rest_noLineTerminator _ Hr).
  - simpl in Hv. apply andb_true_iff in Hv as [Hc Hv].
    apply negb_true_iff in Hc. rewrite Hc, (IH Hv). reflexivity.
Qed.

Lemma token_app (v r : string) :
  isToken v = true -> startsBlank r = true -> noLineTerminator r = true ->
  FilterRegex.token (v ++ r) = Some (v, r).
Proof.
  unfold isToken. intros Hv Hb Hr.
  destruct v as [|c v]; [discriminate|].
  simpl in *. apply andb_true_iff in Hv as [Hc Hv].
  apply negb_true_iff in Hc. rewrite Hc.
  now rewrite (tokenTail_app v r Hv Hb Hr).
Qed.

(** The match of a well-formed qualified query, with its three captures. *)
Lemma exec_qualified (q v r : string) :
  In q FilterRegex.qualifiers ->
  isToken v = true -> startsBlank r = true -> noLineTerminator r = true ->
  FilterRegex.exec (q ++ ":" ++ v ++ r) = Some (q, v, r).
Proof.
  intros Hq Hv Hb Hr.
  pose proof (token_app v r Hv Hb Hr) as Ht.
  unfold FilterRegex.exec.
  simpl in Hq. destruct Hq as [<-|[<-|[<-|[]]]];
    cbn -[FilterRegex.token]; now rewrite Ht.
Qed.

Lemma token_None (s : string) :
  startsBlank s = true -> FilterRegex.token s = None.
Proof.
  destruct s as [|c s]; simpl; [reflexivity|]. now intros ->.
Qed.

Lemma alternative_None (q s : string) :
  startsWith q s = false -> FilterRegex.alternative q s = None.
Proof.
  unfold startsWith, FilterRegex.alternative.
  rewrite stripPrefix_app.
  destruct (stripPrefix q s) as [s1|]; [|reflexivity].
  destruct s1 as [|c s1]; [reflexivity|]. simpl.
  destruct (Ascii.eqb_spec ":" c) as [<-|Hne].
  - intros H. rewrite token_None; [reflexivity|].
    destruct s1 as [|c1 s1]; [reflexivity|].
    simpl. now apply negb_false_iff in H.
  - intros _.
    destruct c as [[] [] [] [] [] [] [] []]; try reflexivity.
    now elim Hne.
Qed.

(** No qualifier word with a colon and a token in front: no match. *)
Lemma exec_None (s : string) :
  startsWithQualifier s = false -> FilterRegex.exec s = None.
Proof.
  unfold startsWithQualifier, FilterRegex.exec. simpl.
  intros H.
  apply orb_false_iff in H as [H1 H].
  apply orb_false_iff in H as [H2 H].
  apply orb_false_iff in H as [H3 _].
  now rewrite !alternative_None.
Qed.

Lemma isLineTerminator_isWhiteSpace (c : ascii) :
  isLineTerminator c = true -> isWhiteSpace c = true.
Proof.
  destruct c as [[] [] [] [] [] [] [] []]; vm_compute; intros H;
    first [exact H | reflexivity].
Qed.

Lemma stripPrefix_Some (p s s' : string) :
  stripPrefix p s = Some s' -> s = p ++ s'.
Proof.
  revert s. induction p as [|a p IH]; intros s; simpl.
  - now intros [= ->].
  - destruct s as [|b s]; [discriminate|].
    destruct (Ascii.eqb_spec a b) as [<-|]; [|discriminate].
    intros H. now rewrite (IH _ H).
Qed.

Lemma noLineTerminator_app (a b : string) :
  noLineTerminator (a ++ b) = noLineTerminator a && noLineTerminator b.
Proof.
  induction a as [|c a IH]; simpl; [reflexivity|].
  now rewrite IH, andb_assoc.
Qed.

(** The dot of the pattern does not pass a line terminator, and the end of
    the input is the only place where [$] holds. *)
Lemma rest_line_terminator (s : string) :
  noLineTerminator s = false -> FilterRegex.rest s = None.
Proof.
  induction s as [|c s IH]; cbn [noLineTerminator FilterRegex.rest];
    [discriminate|].
  destruct (isLineTerminator c); [reflexivity|].
  cbn [negb andb]. intros H. now rewrite (IH H).
Qed.

Lemma tokenTail_line_terminator (s : string) :
  noLineTerminator s = false -> FilterRegex.tokenTail s = None.
Proof.
  induction s as [|c s IH]; [discriminate|].
  intros H. cbn [FilterRegex.tokenTail].
  rewrite (rest_line_terminator _ H). cbn [option_map].
  destruct (isWhiteSpace c) eqn:Hc; [reflexivity|].
  cbn [noLineTerminator] in H.
  destruct (isLineTerminator c) eqn:Hl.
  - apply isLineTerminator_isWhiteSpace in Hl. congruence.
  - cbn [negb andb] in H. now rewrite (IH H).
Qed.

Lemma token_line_terminator (s : string) :
  noLineTerminator s = false -> FilterRegex.token s = None.
Proof.
  destruct s as [|c s]; [discriminate|].
  intros H. cbn [FilterRegex.token].
  destruct (isWhiteSpace c) eqn:Hc; [reflexivity|].
  cbn [noLineTerminator] in H.
  destruct (isLineTerminator c) eqn:Hl.
  - apply isLineTerminator_isWhiteSpace in Hl. congruence.
  - cbn [negb andb] in H. now rewrite (tokenTail_line_terminator _ H).
Qed.

Lemma alternative_line_terminator (q s : string) :
  noLineTerminator q = true -> noLineTerminator s = false ->
  FilterRegex.alternative q s = None.
Proof.
  intros Hq Hs. unfold FilterRegex.alternative.
  destruct (stripPrefix q s) as [[|c s1]|] eqn:Hp; try reflexivity.
  apply stripPrefix_Some in Hp. subst s.
  rewrite noLineTerminator_app, Hq in Hs. cbn [andb noLineTerminator] in Hs.
  destruct (Ascii.eqb_spec c ":"%char) as [->|Hne].
  - change (isLineTerminator ":") with false in Hs. cbn [negb andb] in Hs.
    now rewrite (token_line_terminator _ Hs).
  - destruct c as [[] [] [] [] [] [] [] []]; try reflexivity. now elim Hne.
Qed.

(** An input with a line terminator anywhere does not match: there is no
    [s] flag, so the dot stops in front of it, and no [m] flag, so [$] is
    the end of the input only. *)
Lemma exec_line_terminator (s : string) :
  noLineTerminator s = false -> FilterRegex.exec s = None.
Proof.
  intros H. unfold FilterRegex.exec, FilterRegex.qualifiers.
  cbn [FilterRegex.firstMatch].
  now rewrite !alternative_line_terminator.
Qed.

Lemma rest_all (s r : string) : FilterRegex.rest s = Some r -> r = s.
Proof.
  revert r. induction s as [|c s IH]; intros r; cbn [FilterRegex.rest].
  - now intros [= <-].
  - destruct (isLineTerminator c); [discriminate|].
    destruct (FilterRegex.rest s) as [r'|]; [|discriminate].
    intros [= <-]. now rewrite (IH r' eq_refl).
Qed.

Lemma tokenTail_split (s v r : string) :
  FilterRegex.tokenTail s = Some (v, r) -> s = v ++ r.
Proof.
  revert v. induction s as [|c s IH]; intros v; cbn [FilterRegex.tokenTail].
  - cbn. now intros [= <- <-].
  - assert (Hstop : option_map (fun r0 => (EmptyString, r0))
                      (FilterRegex.rest (String c s)) = Some (v, r) ->
                    String c s = v ++ r).
    { destruct (FilterRegex.rest (String c s)) as [r0|] eqn:E;
        [|discriminate].
      cbn [option_map]. intros [= <- <-]. symmetry. exact (rest_all _ _ E). }
    destruct (isWhiteSpace c); [exact Hstop|].
    destruct (FilterRegex.tokenTail s) as [[v' r']|]; [|exact Hstop].
    intros [= <- <-]. cbn. now rewrite (IH v' eq_refl).
Qed.

Lemma token_split (s v r : string) :
  FilterRegex.token s = Some (v, r) -> s = v ++ r.
Proof.
  destruct s as [|c s]; cbn [FilterRegex.token]; [discriminate|].
  destruct (isWhiteSpace c); [discriminate|].
  destruct (FilterRegex.tokenTail s) as [[v' r']|] eqn:E; [|discriminate].
  cbn [option_map]. intros [= <- <-]. cbn.
  now rewrite (tokenTail_split _ _ _ E).
Qed.

Lemma alternative_split (q0 s q v r : string) :
  FilterRegex.alternative q0 s = Some (q, v, r) ->
  q = q0 /\ s = q0 ++ ":" ++ v ++ r.
Proof.
  unfold FilterRegex.alternative.
  destruct (stripPrefix q0 s) as [[|c s1]|] eqn:Hp; try discriminate.
  apply stripPrefix_Some in Hp. subst s.
  destruct (Ascii.eqb_spec c ":"%char) as [->|Hne].
  - destruct (FilterRegex.token s1) as [[v' r']|] eqn:E; [|discriminate].
    cbn [option_map]. intros [= <- <- <-]. split; [reflexivity|].
    now rewrite (token_split _ _ _ E).
  - destruct c as [[] [] [] [] [] [] [] []]; try discriminate.
    now elim Hne.
Qed.

(** A match is a split of the input: the qualifier word, the colon, the
    token and the rest. *)
Lemma exec_split (s q v r : string) :
  FilterRegex.exec s = Some (q, v, r) -> s = q ++ ":" ++ v ++ r.
Proof.
  unfold FilterRegex.exec, FilterRegex.qualifiers.
  cbn [FilterRegex.firstMatch].
  destruct (FilterRegex.alternative "before" s) as [m|] eqn:E1.
  { intros [= ->]. now apply alternative_split in E1 as [-> ->]. }
  destruct (FilterRegex.alternative "after" s) as [m|] eqn:E2.
  { intros [= ->]. now apply alternative_split in E2 as [-> ->]. }
  destruct (FilterRegex.alternative "reporter" s) as [m|] eqn:E3;
    [|discriminate].
  intros [= ->]. now apply alternative_split in E3 as [-> ->].
Qed.

Lemma parse_plain (tz : JsDate.TimeZone) (s : string) :
  FilterRegex.exec s = None ->
  Controller.parse tz s = Controller.plainText (toLowerCase (trim s)).
Proof. unfold Controller.parse. now intros ->. Qed.

End RegexFacts.

(* ================================================================== *)
(** * The filter parser *)
(* ================================================================== *)

Section ParserTheorems.
Import Grammar Controller.

Variable tz : JsDate.TimeZone.

Lemma startsWithQualifier_empty_token (q rest : string) :
  In q FilterRegex.qualifiers -> startsBlank rest = true ->
  startsWithQualifier (q ++ ":" ++ rest) = false.
Proof.
  intros Hq Hb. unfold startsWithQualifier, startsWith.
  simpl in Hq. destruct Hq as [<-|[<-|[<-|[]]]]; simpl;
    destruct rest as [|c rest]; simpl in *; try reflexivity;
    now rewrite Hb.
Qed.

(** C1, as the code has it: a qualifier word and a colon with no token
    behind it (the end of the input, or a blank) do not match the
    grammar; the qualifier fields stay unset and the whole input, the word
    and the colon included, is the free text. *)
Theorem empty_token_is_plain_text (q rest : string) :
  In q FilterRegex.qualifiers -> startsBlank rest = true ->
  parse tz (q ++ ":" ++ rest)
  = plainText (toLowerCase (trim (q ++ ":" ++ rest))).
Proof.
  intros Hq Hb. apply parse_plain, exec_None.
  now apply startsWithQualifier_empty_token.
Qed.

(** C4: at most one of [beforeDate], [afterDate] and [reporterEmail] is set,
    whatever the input. *)
Theorem at_most_one_qualifier (s : string) :
  (qualifiersSet (parse tz s) <= 1)%nat.
Proof.
  unfold parse, qualifiersSet.
  destruct (FilterRegex.exec s) as [[[filterType filterValue] remaining]|];
    [|simpl; lia].
  destruct (String.eqb filterType "before").
  { destruct (DateFns.parse tz filterValue); simpl; lia. }
  destruct (String.eqb filterType "after").
  { destruct (JsDate.setUTCHoursEndOfDay (DateFns.parse tz filterValue));
      simpl; lia. }
  destruct (String.eqb filterType "reporter"); simpl; lia.
Qed.

(** C5: a string that does not start with a qualifier word, a colon and a
    non-empty token is free text: [searchValue] is the trimmed, lower-cased
    input and the three qualifier fields are unset. *)
Theorem plain_text_fallback (s : string) :
  startsWithQualifier s = false ->
  parse tz s = plainText (trim (toLowerCase s)).
Proof.
  intros H. rewrite trim_toLowerCase. now apply parse_plain, exec_None.
Qed.

(** C6, as the code has it: a [before:] or [after:] token that is not a
    date leaves the date field unset.  What follows the token is the free
    text when it holds no line terminator, as for [before:not-a-date foo];
    when it holds one the input does not match the pattern at all and the
    whole input is the free text. *)
Theorem invalid_date_dropped (q v r : string) :
  q = "before" \/ q = "after" ->
  isToken v = true -> startsBlank r = true ->
  DateFns.isValid (DateFns.parse tz v) = false ->
  parse tz (q ++ ":" ++ v ++ r)
  = plainText (toLowerCase
                 (trim (if noLineTerminator r then r
                        else q ++ ":" ++ v ++ r)))
  /\ parse tz "before:not-a-date foo" = plainText "foo".
Proof.
  intros Hq Hv Hb Hbad. split; [|reflexivity].
  destruct (noLineTerminator r) eqn:Hr.
  - assert (Hin : In q FilterRegex.qualifiers)
      by (destruct Hq as [->| ->]; simpl; auto).
    unfold parse. rewrite (exec_qualified q v r Hin Hv Hb Hr).
    destruct (DateFns.parse tz v) as [t|]; [discriminate|].
    destruct Hq as [->| ->]; reflexivity.
  - apply parse_plain, exec_line_terminator.
    rewrite !noLineTerminator_app, Hr. now rewrite !andb_false_r.
Qed.

#[local] Arguments Ascii.eqb : simpl never.

(** A word whose lower-case form is [q] has the letters of [q], each in
    one of its two cases. *)
Ltac letters w H :=
  repeat (destruct w as [|?c w]; [discriminate H|]; simpl in H;
          let Hc := fresh "Hc" in
          injection H as Hc H);
  destruct w; [clear H | discriminate H].

Ltac compare_letters :=
  unfold startsWithQualifier, startsWith; simpl;
  repeat match goal with
    | |- context [Ascii.eqb ?a ?c] =>
        destruct (Ascii.eqb_spec a c);
        [ subst c;
          try match goal with
            | Hc : lowerChar _ = _ |- _ => now vm_compute in Hc
            end
        | ]; simpl
    end;
  try reflexivity.

Lemma startsWithQualifier_case_variant (q w rest : string) :
  In q FilterRegex.qualifiers -> caseVariantOf q w ->
  startsWithQualifier (w ++ rest) = false.
Proof.
  intros Hq [Hlow Hne].
  simpl in Hq. destruct Hq as [<-|[<-|[<-|[]]]];
    letters w Hlow; compare_letters; now elim Hne.
Qed.

(** C10: the qualifier words are matched letter for letter; written in
    any other letter case ([Before], [REPORTER], ...) they open a string
    that is free text as a whole. *)
Theorem qualifier_case_sensitive (q w rest : string) :
  In q FilterRegex.qualifiers -> caseVariantOf q w ->
  parse tz (w ++ rest) = plainText (toLowerCase (trim (w ++ rest)))
  /\ parse tz "Before:01/01/2024" = plainText "before:01/01/2024"
  /\ parse tz "REPORTER:a@b.com" = plainText "reporter:a@b.com".
Proof.
  intros Hq Hw. split; [|split; reflexivity].
  apply parse_plain, exec_None.
  now apply startsWithQualifier_case_variant with (q := q).
Qed.

(** The same from the raw request input, which line 9 trims first. *)
Lemma parseRequest_plain (s : string) :
  startsWithQualifier (trim s) = false ->
  parseRequest tz s = plainText (trim (toLowerCase s)).
Proof.
  intros H. unfold parseRequest.
  rewrite (parse_plain tz _ (exec_None _ H)), trim_idempotent.
  now rewrite trim_toLowerCase.
Qed.

(** On a host at UTC or west of it, local midnight of 1 January 2024 lies
    within that day in UTC, and the stored instant is its last
    millisecond. *)
Lemma after_west_of_utc :
  (-1440 < tz <= 0)%Z ->
  parse tz "after:01/01/2024"
  = mkFilter None (Some (endOfDayUTC 2024 1 1)) None (Some "").
Proof.
  intros Htz.
  assert (E : DateFns.parse tz "01/01/2024"
              = Some (19723 * JsDate.msPerDay - tz * JsDate.msPerMinute)%Z).
  { change (DateFns.parse tz "01/01/2024")
      with (JsDate.timeClip
              (19723 * JsDate.msPerDay - tz * JsDate.msPerMinute)%Z).
    unfold JsDate.timeClip, JsDate.msPerDay, JsDate.msPerMinute,
      JsDate.maxTime.
    destruct (Z.leb_spec (Z.abs (19723 * 86400000 - tz * 60000))
                8640000000000000); [reflexivity | lia]. }
  change (parse tz "after:01/01/2024")
    with (let afterDate :=
            JsDate.setUTCHoursEndOfDay (DateFns.parse tz "01/01/2024") in
          mkFilter None
            (if DateFns.isValid afterDate then afterDate else None)
            None (Some "")).
  rewrite E. cbv zeta. unfold JsDate.setUTCHoursEndOfDay.
  assert (D : ((19723 * JsDate.msPerDay - tz * JsDate.msPerMinute)
               / JsDate.msPerDay = 19723)%Z).
  { unfold JsDate.msPerDay, JsDate.msPerMinute.
    symmetry. apply (Z.div_unique _ _ _ (- tz * 60000)%Z); lia. }
  rewrite D. reflexivity.
Qed.

(** C2 on a host at UTC: the stored instant is the last millisecond of
    1 January 2024, UTC. *)
Lemma after_at_utc :
  parse 0 "after:01/01/2024"
  = mkFilter None (Some (endOfDayUTC 2024 1 1)) None (Some "").
Proof. reflexivity. Qed.

End ParserTheorems.

(** C2 on a host one hour east of UTC: local midnight of 1 January falls on
    31 December in UTC, and it is that day whose last millisecond
    [setUTCHours] stores, not the instant claimed. *)
Theorem after_east_of_utc :
  Controller.afterDate (Controller.parse 60 "after:01/01/2024")
  = Some (Grammar.endOfDayUTC 2023 12 31)
  /\ Grammar.endOfDayUTC 2023 12 31 = 1704067199999
  /\ Grammar.endOfDayUTC 2024 1 1 = 1704153599999
  /\ Controller.searchValue (Controller.parse 60 "after:01/01/2024") = Some "".
Proof. repeat split; reflexivity. Qed.

(** C1 as stated fails: for [before: foo] the free text is the whole input,
    not what follows the colon. *)
Lemma empty_token_counterexample :
  Controller.searchValue (Controller.parse 0 "before: foo") = Some "before: foo"
  /\ Controller.searchValue (Controller.parse 0 "before: foo") <> Some "foo"
  /\ Controller.searchValue (Controller.parse 0 "before:") = Some "before:".
Proof. repeat split; try reflexivity. discriminate. Qed.

Lemma empty_token_is_plain_text_witness :
  Controller.parse 0 "reporter: alice"
  = Controller.plainText "reporter: alice".
Proof.
  apply (empty_token_is_plain_text 0 "reporter" " alice"); simpl; auto.
Defined.

Lemma plain_text_fallback_witness :
  Controller.parse 0 "  Urgent XSS in Login " = Controller.plainText "urgent xss in login".
Proof. apply (plain_text_fallback 0 "  Urgent XSS in Login "). reflexivity. Defined.

(** C6 as stated fails when a line break follows the token: for
    [before:not-a-date foo], a line feed and [bar], the free text is the
    whole input, not what follows the token. *)
Lemma invalid_date_counterexample :
  let s := "before:not-a-date foo" ++ String (ascii_of_nat 10) "bar" in
  Controller.parseRequest 0 s = Controller.plainText s
  /\ Controller.searchValue (Controller.parse 0 s) = Some s
  /\ Controller.searchValue (Controller.parse 0 s)
     <> Some ("foo" ++ String (ascii_of_nat 10) "bar").
Proof. repeat split; try reflexivity. discriminate. Qed.

Lemma invalid_date_dropped_witness :
  Controller.parse 0 "after:31/02/2024 Crash"
  = Controller.plainText "crash"
  /\ Controller.parse 0 "before:not-a-date foo" = Controller.plainText "foo".
Proof.
  apply (invalid_date_dropped 0 "after" "31/02/2024" " Crash");
    solve [auto | reflexivity].
Defined.

Lemma qualifier_case_sensitive_witness :
  Controller.parse 0 "bEfore:01/01/2024 x"
  = Controller.plainText "before:01/01/2024 x"
  /\ Controller.parse 0 "Before:01/01/2024"
     = Controller.plainText "before:01/01/2024"
  /\ Controller.parse 0 "REPORTER:a@b.com"
     = Controller.plainText "reporter:a@b.com".
Proof.
  apply (qualifier_case_sensitive 0 "before" "bEfore" ":01/01/2024 x").
  - simpl; auto.
  - split; [reflexivity | discriminate].
Defined.

(* ================================================================== *)
(** * Counting in an object *)
(* ================================================================== *)

Local Open Scope list_scope.
Local Open Scope nat_scope.

Section CountingFacts.
Import Counting.

Lemma In_firstSeen (k : string) (l : list string) :
  In k (firstSeen l) <-> In k l.
Proof.
  induction l as [|x l IH]; simpl; [tauto|].
  rewrite filter_In, IH, negb_true_iff, String.eqb_neq.
  destruct (string_dec x k) as [->|Hne]; [tauto|].
  split; [tauto|]. intros [H|H]; [tauto|]. right. split; congruence.
Qed.

Lemma existsb_eqb_In (k : string) (l : list string) :
  existsb (String.eqb k) l = true <-> In k l.
Proof.
  rewrite existsb_exists. split.
  - intros [y [Hy He]]. apply String.eqb_eq in He. now subst.
  - intros H. exists k. split; [exact H | apply String.eqb_refl].
Qed.

Lemma existsb_firstSeen (k : string) (l : list string) :
  existsb (String.eqb k) (firstSeen l) = existsb (String.eqb k) l.
Proof.
  apply eq_true_iff_eq. now rewrite !existsb_eqb_In, In_firstSeen.
Qed.

Lemma NoDup_firstSeen (l : list string) : NoDup (firstSeen l).
Proof.
  induction l as [|x l IH]; simpl; constructor.
  - rewrite filter_In, String.eqb_refl. simpl. intros [_ H]. discriminate.
  - now apply NoDup_filter.
Qed.

Lemma firstSeen_snoc (l : list string) (x : string) :
  firstSeen (l ++ [x])
  = firstSeen l ++ (if existsb (String.eqb x) l then [] else [x]).
Proof.
  induction l as [|a l IH]; simpl; [reflexivity|].
  rewrite IH, filter_app. f_equal. f_equal.
  destruct (String.eqb_spec x a) as [->|Hne]; simpl.
  - destruct (existsb _ l); simpl; [reflexivity|].
    now rewrite String.eqb_refl.
  - destruct (existsb _ l); simpl; [reflexivity|].
    apply String.eqb_neq in Hne. now rewrite Hne.
Qed.

Lemma occurrences_snoc (k x : string) (l : list string) :
  occurrences k (l ++ [x])
  = occurrences k l + (if String.eqb x k then 1 else 0).
Proof.
  unfold occurrences. rewrite count_occ_app. simpl.
  destruct (string_dec x k) as [->|Hne].
  - now rewrite String.eqb_refl.
  - apply String.eqb_neq in Hne. now rewrite Hne.
Qed.

Lemma occurrences_not_In (k : string) (l : list string) :
  existsb (String.eqb k) l = false -> occurrences k l = 0.
Proof.
  intros H. apply count_occ_not_In. intros Hin.
  apply (proj2 (existsb_eqb_In _ _)) in Hin. congruence.
Qed.

Section Mapped.
Variable f : string -> JsObject.Value.

Let entry (k : string) : Entry := mkEntry k (f k).

Lemma getOwn_map (k : string) (ks : list string) :
  getOwn k (map entry ks)
  = if existsb (String.eqb k) ks then Some (f k) else None.
Proof.
  induction ks as [|a ks IH]; simpl; [reflexivity|].
  rewrite (String.eqb_sym k a).
  destruct (String.eqb_spec a k) as [->|_]; [reflexivity | exact IH].
Qed.

Lemma setOwn_map (k : string) (v : JsObject.Value) (ks : list string) :
  NoDup ks ->
  setOwn k v (map entry ks)
  = map (fun k' => mkEntry k' (if String.eqb k k' then v else f k')) ks.
Proof.
  induction 1 as [|a ks Hnotin Hnd IH]; simpl; [reflexivity|].
  rewrite (String.eqb_sym k a).
  destruct (String.eqb_spec a k) as [->|Hne].
  - f_equal. apply map_ext_in. intros k' Hin. unfold entry.
    destruct (String.eqb_spec k k') as [->|_]; [contradiction | reflexivity].
  - now rewrite IH.
Qed.
End Mapped.

(** One more occurrence of a key that is not inherited. *)
Lemma increment_tally (l : list string) (x : string) :
  notInherited x = true -> increment (tally l) x = tally (l ++ [x]).
Proof.
  intros Hx. unfold notInherited in Hx.
  apply andb_true_iff in Hx as [Hm Ha].
  apply negb_true_iff in Hm. apply negb_true_iff in Ha.
  unfold increment, tally.
  rewrite (getOwn_map (fun k => Count (occurrences k l))), firstSeen_snoc.
  rewrite existsb_firstSeen.
  destruct (existsb (String.eqb x) l) eqn:Hin.
  - rewrite app_nil_r.
    rewrite (setOwn_map (fun k => Count (occurrences k l)))
      by apply NoDup_firstSeen.
    apply map_ext. intros k. rewrite occurrences_snoc.
    destruct (String.eqb_spec x k) as [->|_]; [reflexivity|].
    now rewrite Nat.add_0_r.
  - rewrite Ha, Hm, map_app. simpl.
    rewrite occurrences_snoc, String.eqb_refl, (occurrences_not_In _ _ Hin).
    f_equal. apply map_ext_in. intros k Hk. rewrite occurrences_snoc.
    destruct (String.eqb_spec x k) as [->|_]; [|now rewrite Nat.add_0_r].
    apply (proj1 (In_firstSeen _ _)) in Hk.
    apply (proj2 (existsb_eqb_In _ _)) in Hk. congruence.
Qed.

(** The counting loop builds the tally of its keys. *)
Lemma countBy_tally (l : list string) :
  forallb notInherited l = true -> fold_left increment l [] = tally l.
Proof.
  induction l as [|x l IH] using rev_ind; intros H; [reflexivity|].
  rewrite forallb_app in H. apply andb_true_iff in H as [Hl Hx].
  simpl in Hx. rewrite andb_true_r in Hx.
  rewrite fold_left_app. simpl. rewrite (IH Hl).
  now apply increment_tally.
Qed.

Lemma fold_left_flat_map {A B C : Type} (f : A -> C -> A) (g : B -> list C)
      (l : list B) (a : A) :
  fold_left (fun acc b => fold_left f (g b) acc) l a
  = fold_left f (flat_map g l) a.
Proof.
  revert a; induction l as [|b l IH]; intros a; simpl; [reflexivity|].
  now rewrite fold_left_app, IH.
Qed.

Lemma fold_left_map {A B C : Type} (f : A -> C -> A) (g : B -> C)
      (l : list B) (a : A) :
  fold_left (fun acc b => f acc (g b)) l a = fold_left f (map g l) a.
Proof.
  revert a; induction l as [|b l IH]; intros a; simpl; [reflexivity|].
  apply IH.
Qed.

Lemma labelCounts_flat (tickets : list Ticket) :
  labelCounts tickets = fold_left increment (allLabels tickets) [].
Proof.
  unfold labelCounts, allLabels.
  rewrite <- fold_left_flat_map.
  generalize (@nil Entry) as o.
  induction tickets as [|t tickets IH]; intros o; simpl; [reflexivity|].
  rewrite <- IH. unfold labelsOf. now destruct (labels t).
Qed.

Lemma reporterCounts_map (tickets : list Ticket) :
  reporterCounts tickets = fold_left increment (allReporters tickets) [].
Proof. unfold reporterCounts, allReporters. apply fold_left_map. Qed.

(** Without array indices among the keys, [Object.entries] lists the
    properties in order of creation. *)
Lemma entries_creation_order (o : Obj) :
  forallb (fun e => negb (isArrayIndex (key e))) o = true -> entries o = o.
Proof.
  intros H. unfold entries.
  assert (Hnone : filter (fun e => isArrayIndex (key e)) o = []).
  { induction o as [|e o IH]; simpl in *; [reflexivity|].
    apply andb_true_iff in H as [He Ho]. apply negb_true_iff in He.
    rewrite He. now apply IH. }
  rewrite Hnone. simpl.
  induction o as [|e o IH]; simpl in *; [reflexivity|].
  apply andb_true_iff in H as [He Ho]. rewrite He. f_equal.
  apply IH; [exact Ho|].
  apply negb_true_iff in He. now rewrite He in Hnone.
Qed.

Lemma insertByIndex_perm (e : Entry) (l : list Entry) :
  Permutation (insertByIndex e l) (e :: l).
Proof.
  induction l as [|e' l IH]; simpl; [reflexivity|].
  destruct (N.leb _ _); [reflexivity|].
  rewrite IH. apply perm_swap.
Qed.

(** [Object.entries] lists every own property once. *)
Lemma entries_perm (o : Obj) : Permutation (entries o) o.
Proof.
  unfold entries.
  assert (Hs : forall l, Permutation (fold_right insertByIndex [] l) l).
  { induction l as [|e l IH]; simpl; [reflexivity|].
    now rewrite insertByIndex_perm, IH. }
  rewrite Hs. clear Hs.
  induction o as [|e o IH]; simpl; [reflexivity|].
  destruct (isArrayIndex (key e)); simpl.
  - now rewrite IH.
  - rewrite <- Permutation_middle. now rewrite IH.
Qed.

End CountingFacts.

(* ================================================================== *)
(** * Sorting *)
(* ================================================================== *)

Section SortFacts.
Import JsArray.
Context {A : Type}.
Variable compareFn : A -> A -> option Z.

Lemma insert_perm (x : A) (l : list A) :
  Permutation (insert compareFn x l) (x :: l).
Proof.
  induction l as [|y l IH]; simpl; [reflexivity|].
  destruct (notAfter compareFn x y); [reflexivity|].
  rewrite IH. apply perm_swap.
Qed.

(** The sorted array has the elements of the array. *)
Lemma sort_perm (l : list A) : Permutation (sort compareFn l) l.
Proof.
  induction l as [|x l IH]; simpl; [reflexivity|].
  now rewrite insert_perm, IH.
Qed.

(** The elements on which the comparison function is consistent with an
    order [before], and a class [tied] of elements it does not separate. *)
Variable ok : A -> Prop.
Variable before : A -> A -> Prop.
Variable tied : A -> bool.

Hypothesis before_true :
  forall x y, ok x -> ok y -> notAfter compareFn x y = true -> before x y.
Hypothesis before_false :
  forall x y, ok x -> ok y -> notAfter compareFn x y = false -> before y x.
Hypothesis before_trans :
  forall x y z, ok x -> ok y -> ok z ->
                before x y -> before y z -> before x z.
Hypothesis tied_notAfter :
  forall x y, ok x -> ok y -> tied x = true -> tied y = true ->
              notAfter compareFn x y = true.

Lemma insert_sorted (x : A) (l : list A) :
  ok x -> Forall ok l -> StronglySorted before l ->
  StronglySorted before (insert compareFn x l).
Proof.
  intros Hx Hl Hs. induction Hs as [|y l Hs IH Hy]; simpl.
  - constructor; constructor.
  - inversion Hl as [|? ? Hoky Hokl]; subst.
    destruct (notAfter compareFn x y) eqn:Hc.
    + constructor; [now constructor|].
      pose proof (before_true x y Hx Hoky Hc) as Hxy.
      constructor; [exact Hxy|].
      rewrite Forall_forall in Hy, Hokl |- *. intros z Hz.
      apply (before_trans x y z); auto.
    + constructor; [now apply IH|].
      rewrite (insert_perm x l).
      constructor; [now apply before_false | exact Hy].
Qed.

Lemma sort_ok (l : list A) : Forall ok l -> Forall ok (sort compareFn l).
Proof. intros H. now rewrite (sort_perm l). Qed.

(** The sorted array is in order. *)
Lemma sort_sorted (l : list A) :
  Forall ok l -> StronglySorted before (sort compareFn l).
Proof.
  induction 1 as [|x l Hx Hl IH]; simpl; [constructor|].
  apply insert_sorted; auto. now apply sort_ok.
Qed.

Lemma insert_tied (x : A) (l : list A) :
  ok x -> Forall ok l ->
  filter tied (insert compareFn x l) = filter tied (x :: l).
Proof.
  intros Hx Hl. induction Hl as [|y l Hy Hl IH]; [reflexivity|].
  cbn [insert]. destruct (notAfter compareFn x y) eqn:Hc; [reflexivity|].
  cbn [filter] in *. rewrite IH.
  destruct (tied x) eqn:Htx, (tied y) eqn:Hty; try reflexivity.
  rewrite (tied_notAfter x y Hx Hy Htx Hty) in Hc. discriminate.
Qed.

(** The sort is stable: tied elements keep their order. *)
Lemma sort_stable (l : list A) :
  Forall ok l -> filter tied (sort compareFn l) = filter tied l.
Proof.
  induction 1 as [|x l Hx Hl IH]; [reflexivity|].
  cbn [sort fold_right]. fold (sort compareFn l).
  rewrite insert_tied by (auto using sort_ok).
  cbn [filter]. now rewrite IH.
Qed.

End SortFacts.

(* ================================================================== *)
(** * The dashboard *)
(* ================================================================== *)

Section ByCount.
Import Counting JsArray.

Lemma notAfter_byCount (x y : Entry) (nx ny : nat) :
  count x = Count nx -> count y = Count ny ->
  notAfter byCountDescending x y = (ny <=? nx).
Proof.
  unfold notAfter, byCountDescending. intros -> ->.
  destruct (Nat.leb_spec ny nx); [apply Z.leb_le | apply Z.leb_gt]; lia.
Qed.

Lemma byCount_sorted (l : list Entry) :
  Forall numeric l ->
  StronglySorted descending (sort byCountDescending l).
Proof.
  apply sort_sorted; unfold numeric, descending.
  - intros x y Hx Hy.
    destruct (count x) as [nx|] eqn:Ex, (count y) as [ny|] eqn:Ey;
      try contradiction.
    rewrite (notAfter_byCount x y nx ny Ex Ey). apply Nat.leb_le.
  - intros x y Hx Hy.
    destruct (count x) as [nx|] eqn:Ex, (count y) as [ny|] eqn:Ey;
      try contradiction.
    rewrite (notAfter_byCount x y nx ny Ex Ey), Nat.leb_gt. lia.
  - intros x y z _ _ _.
    destruct (count x), (count y), (count z); try contradiction; lia.
Qed.

Lemma byCount_stable (n : nat) (l : list Entry) :
  Forall numeric l ->
  filter (hasCount n) (sort byCountDescending l) = filter (hasCount n) l.
Proof.
  apply sort_stable. unfold numeric, hasCount.
  intros x y _ _.
  destruct (count x) as [nx|] eqn:Ex, (count y) as [ny|] eqn:Ey;
    try discriminate.
  intros Hx%Nat.eqb_eq Hy%Nat.eqb_eq. subst.
  rewrite (notAfter_byCount x y n n Ex Ey). apply Nat.leb_refl.
Qed.

Lemma tally_numeric (l : list string) : Forall numeric (tally l).
Proof.
  unfold tally. apply Forall_forall. intros e He.
  apply in_map_iff in He as [k [<- _]]. exact I.
Qed.

Lemma entries_numeric (o : Obj) :
  Forall numeric o -> Forall numeric (entries o).
Proof. intros H. now rewrite (entries_perm o). Qed.

Lemma tally_notArrayIndex (l : list string) :
  forallb notArrayIndex l = true ->
  forallb (fun e => negb (isArrayIndex (key e))) (tally l) = true.
Proof.
  intros H. apply forallb_forall. intros e He.
  unfold tally in He. apply in_map_iff in He as [k [<- Hk]]. simpl.
  apply (proj1 (In_firstSeen _ _)) in Hk.
  rewrite forallb_forall in H. now apply H.
Qed.

Lemma filter_firstn {A : Type} (p : A -> bool) (n : nat) (l : list A) :
  exists m, filter p (firstn n l) = firstn m (filter p l).
Proof.
  exists (List.length (filter p (firstn n l))).
  assert (E : filter p l = filter p (firstn n l) ++ filter p (skipn n l))
    by now rewrite <- filter_app, firstn_skipn.
  rewrite E, firstn_app, Nat.sub_diag, firstn_all.
  simpl. now rewrite app_nil_r.
Qed.

(** The sorted counters of a list of keys that are not inherited: what
    [labelData] and, before the cut, [topReporters] hold. *)
Lemma sorted_counts (keys : list string) :
  forallb notInherited keys = true ->
  let out := sort byCountDescending (entries (fold_left increment keys [])) in
  Permutation out (tally keys)
  /\ StronglySorted descending out
  /\ (forall n, filter (hasCount n) out
                = filter (hasCount n) (entries (tally keys)))
  /\ (forallb notArrayIndex keys = true -> entries (tally keys) = tally keys).
Proof.
  intros H. rewrite (countBy_tally keys H). cbv zeta.
  pose proof (entries_numeric _ (tally_numeric keys)) as Hnum.
  repeat split.
  - now rewrite sort_perm, entries_perm.
  - now apply byCount_sorted.
  - intros n. now apply byCount_stable.
  - intros Hi. now apply entries_creation_order, tally_notArrayIndex.
Qed.

End ByCount.

Section DashboardTheorems.
Import Counting JsArray JsNumber.

Variable tz : JsDate.TimeZone.

Lemma sub_infinity (x : float) :
  PrimFloat.is_finite x = true -> (x - infinity)%float = neg_infinity.
Proof.
  intros H. apply Prim2SF_inj. rewrite sub_spec.
  destruct (Prim2SF x) as [s|s| |s m e] eqn:E; try reflexivity; exfalso.
  - destruct s.
    + assert (x = neg_infinity) as ->
        by (apply Prim2SF_inj; now rewrite E).
      discriminate H.
    + assert (x = infinity) as -> by (apply Prim2SF_inj; now rewrite E).
      discriminate H.
  - assert (x = nan) as -> by (apply Prim2SF_inj; now rewrite E).
    discriminate H.
Qed.

Lemma ticketsPerDay_nil (now : float) :
  PrimFloat.is_finite now = true -> ticketsPerDay now [] = 0%float.
Proof.
  intros H. unfold ticketsPerDay. cbn [map]. unfold Math_min.
  cbn [fold_left]. rewrite (sub_infinity now H). reflexivity.
Qed.

(** C7: for no ticket at all the result is the empty analytics: the two
    counts 0, the label ["None"], the average 0, and three empty
    sequences; the division is by 1. *)
Theorem aggregate_empty (now : float) :
  PrimFloat.is_finite now = true ->
  aggregate now tz []
  = mkAnalytics [] [] [] (mkStats 0 0 "None" 0%float).
Proof.
  intros H. unfold aggregate. rewrite (ticketsPerDay_nil now H).
  reflexivity.
Qed.

(** C3, as the code has it: the clock enters the result only through
    [avgTicketsPerDay]; every other field is the same at any two
    readings of [Date.now()]. *)
Theorem aggregate_clock (now1 now2 : float) (tickets : list Ticket) :
  let a1 := aggregate now1 tz tickets in
  let a2 := aggregate now2 tz tickets in
  labelData a1 = labelData a2
  /\ timeline a1 = timeline a2
  /\ topReporters a1 = topReporters a2
  /\ totalTickets (stats a1) = totalTickets (stats a2)
  /\ uniqueReporters (stats a1) = uniqueReporters (stats a2)
  /\ mostCommonLabel (stats a1) = mostCommonLabel (stats a2).
Proof. repeat split. Qed.

(** C9, as the code has it: when no label is the name of a property of
    [Object.prototype], [labelData] has one entry per distinct label with
    the number of its occurrences, in descending order of count; entries
    of equal count follow the order of [Object.entries], which is the
    order of first occurrence when no label is an array index.  The four
    tickets of the example give xss 4, sqli 1. *)
Theorem label_histogram (now : float) (tickets : list Ticket) :
  forallb notInherited (allLabels tickets) = true ->
  let out := labelData (aggregate now tz tickets) in
  let ls := allLabels tickets in
  Permutation out (tally ls)
  /\ StronglySorted descending out
  /\ (forall n, filter (hasCount n) out
                = filter (hasCount n) (entries (tally ls)))
  /\ (forallb notArrayIndex ls = true -> entries (tally ls) = tally ls)
  /\ labelData (aggregate now tz
                  [ticket "a@x.com" 1 ["xss"]; ticket "b@x.com" 2 ["xss"];
                   ticket "c@x.com" 3 ["xss"];
                   ticket "d@x.com" 4 ["xss"; "sqli"]])
     = [mkEntry "xss" (Count 4); mkEntry "sqli" (Count 1)].
Proof.
  intros H. cbv zeta.
  destruct (sorted_counts _ H) as (Hperm & Hsort & Hties & Hfirst).
  unfold aggregate at 1 2 3. cbn [labelData]. rewrite labelCounts_flat.
  repeat split; auto.
Qed.

(** C8, as the code has it: for 15 tickets of 12 distinct reporters, none
    of them named like a property of [Object.prototype], [topReporters]
    has 10 entries and [uniqueReporters] is 12, the number of keys before
    the cut; the 10 entries are the head of the reporters' counters in
    descending order of count, entries of equal count following the
    order of [Object.entries], which is the order of first occurrence
    when no reporter is an array index. *)
Theorem top_reporters (now : float) (tickets : list Ticket) :
  List.length tickets = 15 ->
  List.length (firstSeen (allReporters tickets)) = 12 ->
  forallb notInherited (allReporters tickets) = true ->
  let a := aggregate now tz tickets in
  let es := allReporters tickets in
  List.length (topReporters a) = 10
  /\ uniqueReporters (stats a) = 12
  /\ (exists others,
        Permutation (topReporters a ++ others) (tally es)
        /\ StronglySorted descending (topReporters a ++ others))
  /\ (forall n, exists m,
        filter (hasCount n) (topReporters a)
        = firstn m (filter (hasCount n) (entries (tally es))))
  /\ (forallb notArrayIndex es = true -> entries (tally es) = tally es).
Proof.
  intros _ Hdistinct H. cbv zeta.
  destruct (sorted_counts _ H) as (Hperm & Hsort & Hties & Hfirst).
  unfold aggregate.
  cbn [topReporters stats uniqueReporters]. rewrite reporterCounts_map.
  set (full := sort byCountDescending
                 (entries (fold_left increment (allReporters tickets) [])))
    in *.
  assert (Hlen : List.length full = 12).
  { rewrite (Permutation_length Hperm). unfold tally.
    now rewrite length_map. }
  repeat split.
  - unfold slice0. rewrite length_firstn, Hlen. reflexivity.
  - unfold keysLength.
    rewrite (Permutation_length (entries_perm _)), (countBy_tally _ H).
    unfold tally. now rewrite length_map.
  - exists (skipn 10 full). unfold slice0. rewrite firstn_skipn. auto.
  - intros n. unfold slice0.
    destruct (filter_firstn (hasCount n) 10 full) as [m Hm].
    exists m. now rewrite Hm, Hties.
  - exact Hfirst.
Qed.

End DashboardTheorems.

(** C3 as stated fails: one ticket created at the epoch, aggregated one day
    and two days later, has the averages 1 and 0.5. *)
Lemma aggregate_clock_counterexample :
  avgTicketsPerDay
    (stats (aggregate 86400000 0%Z [ticket "a@x.com" 0 ["xss"]])) = 1%float
  /\ avgTicketsPerDay
       (stats (aggregate 172800000 0%Z [ticket "a@x.com" 0 ["xss"]])) = 0.5%float
  /\ aggregate 86400000 0%Z [ticket "a@x.com" 0 ["xss"]]
     <> aggregate 172800000 0%Z [ticket "a@x.com" 0 ["xss"]].
Proof.
  repeat split; try reflexivity.
  intros H.
  apply (f_equal (fun a => Prim2SF (avgTicketsPerDay (stats a)))) in H.
  vm_compute in H. discriminate H.
Qed.

Lemma aggregate_empty_witness :
  aggregate 1700000000000 60%Z []
  = mkAnalytics [] [] [] (mkStats 0 0 "None" 0%float).
Proof. apply (aggregate_empty 60%Z 1700000000000%float). reflexivity. Defined.

(** C8 as stated fails: with a reporter named [7] the entries of equal
    count are not in order of first occurrence, and a reporter named
    [__proto__] is not counted at all. *)
Lemma top_reporters_counterexample :
  let tickets := Samples.fifteenTickets "bob@x.com" "7" "__proto__" in
  let a := aggregate 1700000000000 0%Z tickets in
  List.length tickets = 15
  /\ Counting.firstSeen (Counting.allReporters tickets)
     = ["ann@x.com"; "bob@x.com"; "7"; "__proto__"; "c@x.com"; "d@x.com";
        "e@x.com"; "f@x.com"; "g@x.com"; "h@x.com"; "i@x.com"; "j@x.com"]
  /\ uniqueReporters (stats a) = 11
  /\ topReporters a
     = [mkEntry "ann@x.com" (Count 4); mkEntry "7" (Count 1);
        mkEntry "bob@x.com" (Count 1); mkEntry "c@x.com" (Count 1);
        mkEntry "d@x.com" (Count 1); mkEntry "e@x.com" (Count 1);
        mkEntry "f@x.com" (Count 1); mkEntry "g@x.com" (Count 1);
        mkEntry "h@x.com" (Count 1); mkEntry "i@x.com" (Count 1)].
Proof. repeat split. Qed.

Lemma top_reporters_witness :
  let tickets := Samples.fifteenTickets "bob@x.com" "k@x.com" "l@x.com" in
  let a := aggregate 1700000000000 0%Z tickets in
  let es := Counting.allReporters tickets in
  List.length (topReporters a) = 10
  /\ uniqueReporters (stats a) = 12
  /\ (exists others,
        Permutation (topReporters a ++ others) (Counting.tally es)
        /\ StronglySorted Counting.descending (topReporters a ++ others))
  /\ (forall n, exists m,
        filter (Counting.hasCount n) (topReporters a)
        = firstn m (filter (Counting.hasCount n) (entries (Counting.tally es))))
  /\ (forallb Counting.notArrayIndex es = true
      -> entries (Counting.tally es) = Counting.tally es).
Proof.
  apply (top_reporters 0%Z 1700000000000%float
           (Samples.fifteenTickets "bob@x.com" "k@x.com" "l@x.com"));
    reflexivity.
Defined.

(** C9 as stated fails: the label [1], met after [b], comes before it, and
    the label [__proto__] is not counted at all. *)
Lemma label_histogram_counterexample :
  labelData (aggregate 1700000000000 0%Z
               [ticket "a@x.com" 1 ["b"]; ticket "b@x.com" 2 ["1"; "__proto__"]])
  = [mkEntry "1" (Count 1); mkEntry "b" (Count 1)].
Proof. reflexivity. Qed.

Lemma label_histogram_witness :
  let tickets := [ticket "a@x.com" 1 ["xss"; "csrf"];
                  mkTicket "2" "t" "c" 2 "b@x.com" None;
                  ticket "c@x.com" 3 ["csrf"; "sqli"; "csrf"]] in
  let out := labelData (aggregate 1700000000000 0%Z tickets) in
  let ls := Counting.allLabels tickets in
  Permutation out (Counting.tally ls)
  /\ StronglySorted Counting.descending out
  /\ (forall n, filter (Counting.hasCount n) out
                = filter (Counting.hasCount n) (entries (Counting.tally ls)))
  /\ (forallb Counting.notArrayIndex ls = true
      -> entries (Counting.tally ls) = Counting.tally ls)
  /\ labelData (aggregate 1700000000000 0%Z
                  [ticket "a@x.com" 1 ["xss"]; ticket "b@x.com" 2 ["xss"];
                   ticket "c@x.com" 3 ["xss"];
                   ticket "d@x.com" 4 ["xss"; "sqli"]])
     = [mkEntry "xss" (Count 4); mkEntry "sqli" (Count 1)].
Proof.
  apply (label_histogram 0%Z 1700000000000%float
           [ticket "a@x.com" 1 ["xss"; "csrf"];
            mkTicket "2" "t" "c" 2 "b@x.com" None;
            ticket "c@x.com" 3 ["csrf"; "sqli"; "csrf"]]).
  reflexivity.
Defined.

Example label_histogram_sample :
  labelData (aggregate 1700000000000 0%Z
               [ticket "a@x.com" 1 ["xss"; "csrf"];
                mkTicket "2" "t" "c" 2 "b@x.com" None;
                ticket "c@x.com" 3 ["csrf"; "sqli"; "csrf"]])
  = [mkEntry "csrf" (Count 3); mkEntry "xss" (Count 1);
     mkEntry "sqli" (Count 1)].
Proof. reflexivity. Qed.

(* ================================================================== *)
(** * Pagination *)
(* ================================================================== *)

Local Open Scope Z_scope.

Section PaginationTheorems.
Import Pagination.

Lemma small_total (total : Z) :
  2 <= total <= 7 ->
  total = 2 \/ total = 3 \/ total = 4 \/ total = 5 \/ total = 6 \/ total = 7.
Proof. lia. Qed.

Ltac small_cases H :=
  destruct (small_total _ H) as [->|[->|[->|[->|[->| ->]]]]].

Ltac decide_eqb :=
  repeat match goal with
    | |- context [Z.eqb ?a ?b] => destruct (Z.eqb_spec a b); try lia
    end.

(** X1: whenever there are two pages or more, a page list is drawn and it
    abbreviates the pages 1 to [total]: it starts with page 1 and ends with
    page [total], neighbours in the list are consecutive pages, and every
    ellipsis stands between two pages with at least one page left out. *)
Theorem pages_abbreviate (current total : Z) :
  2 <= total ->
  exists items, pages current total = Some items /\ abbreviates items total.
Proof.
  intros H. unfold pages.
  destruct (Z.leb_spec total 1); [lia|].
  destruct (Z.leb_spec total 7).
  - exists (upTo total). split; [reflexivity|].
    assert (H7 : 2 <= total <= 7) by lia.
    small_cases H7; simpl; lia.
  - eexists. split; [reflexivity|].
    destruct (Z.leb_spec current 3); [simpl; lia|].
    destruct (Z.leb_spec (total - 2) current); simpl; lia.
Qed.

(** X2: up to seven pages, every page has its button and there is no
    ellipsis. *)
Theorem pages_all_listed (current total n : Z) :
  2 <= total <= 7 -> 1 <= n <= total ->
  exists items,
    pages current total = Some items
    /\ In (Page n) items /\ ~ In Ellipsis items.
Proof.
  intros H Hn. exists (upTo total). unfold pages.
  destruct (Z.leb_spec total 1); [lia|].
  destruct (Z.leb_spec total 7); [|lia].
  split; [reflexivity|]. split.
  - unfold upTo. apply in_map_iff. exists (Z.to_nat n).
    split; [f_equal; lia|]. apply in_seq. lia.
  - unfold upTo. intros Hin. apply in_map_iff in Hin as [i [Hi _]].
    discriminate Hi.
Qed.

(** X3: for a current page within range, exactly one button is drawn as
    selected, and the pages before and after it, where they exist, have
    their buttons too. *)
Theorem current_page_shown (current total : Z) :
  2 <= total -> 1 <= current <= total ->
  exists items,
    pages current total = Some items
    /\ List.length (filter (selected current) items) = 1%nat
    /\ (1 < current -> In (Page (current - 1)) items)
    /\ (current < total -> In (Page (current + 1)) items).
Proof.
  intros H Hc. unfold pages.
  destruct (Z.leb_spec total 1); [lia|].
  destruct (Z.leb_spec total 7).
  - exists (upTo total). split; [reflexivity|].
    assert (H7 : 2 <= total <= 7) by lia.
    split; [|split].
    + small_cases H7; simpl; decide_eqb; reflexivity.
    + intros Hp. unfold upTo. apply in_map_iff. exists (Z.to_nat (current - 1)).
      split; [f_equal; lia|]. apply in_seq. lia.
    + intros Hn. unfold upTo. apply in_map_iff. exists (Z.to_nat (current + 1)).
      split; [f_equal; lia|]. apply in_seq. lia.
  - eexists. split; [reflexivity|].
    destruct (Z.leb_spec current 3).
    + split; [simpl; decide_eqb; reflexivity|].
      assert (Hc3 : current = 1 \/ current = 2 \/ current = 3) by lia.
      split; intros ?; destruct Hc3 as [->|[->| ->]]; simpl; auto; lia.
    + destruct (Z.leb_spec (total - 2) current).
      * split; [simpl; decide_eqb; reflexivity|].
        assert (Hc3 : current = total - 2 \/ current = total - 1
                      \/ current = total) by lia.
        split; intros ?; destruct Hc3 as [->|[->| ->]]; simpl;
          try lia;
          repeat (first [left; f_equal; lia | right]).
      * split; [simpl; decide_eqb; reflexivity|].
        split; intros ?; simpl; auto 10.
Qed.

End PaginationTheorems.

Lemma pages_abbreviate_witness :
  exists items,
    Pagination.pages 5 12 = Some items /\ Pagination.abbreviates items 12.
Proof. apply (pages_abbreviate 5 12). lia. Defined.

Lemma pages_all_listed_witness :
  exists items,
    Pagination.pages 2 6 = Some items
    /\ In (Pagination.Page 4) items /\ ~ In Pagination.Ellipsis items.
Proof. apply (pages_all_listed 2 6 4); lia. Defined.

Lemma current_page_shown_witness :
  exists items,
    Pagination.pages 9 12 = Some items
    /\ List.length (filter (Pagination.selected 9) items) = 1%nat
    /\ (1 < 9 -> In (Pagination.Page (9 - 1)) items)
    /\ (9 < 12 -> In (Pagination.Page (9 + 1)) items).
Proof. apply (current_page_shown 9 12); lia. Defined.

(* ================================================================== *)
(** * Recent issues *)
(* ================================================================== *)

Section RecentTheorems.
Import Recent JsArray.

Lemma byNewest_sorted (l : list Ticket) :
  StronglySorted newestFirst (sort byNewest l).
Proof.
  apply (sort_sorted byNewest (fun _ => True)).
  - intros x y _ _. unfold notAfter, byNewest, newestFirst.
    intros H%Z.leb_le. lia.
  - intros x y _ _. unfold notAfter, byNewest, newestFirst.
    intros H%Z.leb_gt. lia.
  - unfold newestFirst. intros x y z _ _ _. lia.
  - apply Forall_forall. auto.
Qed.

Lemma byNewest_stable (t : Z) (l : list Ticket) :
  filter (createdAt t) (sort byNewest l) = filter (createdAt t) l.
Proof.
  apply (sort_stable byNewest (fun _ => True)).
  - intros x y _ _. unfold createdAt, notAfter, byNewest.
    intros Hx%Z.eqb_eq Hy%Z.eqb_eq. apply Z.leb_le. lia.
  - apply Forall_forall. auto.
Qed.

(** X4: the recent issues are the five newest tickets (all of them when
    there are fewer), newest first: with the tickets left out behind them
    they are the whole list in descending order of creation time, and
    tickets created at the same instant keep the order they came in. *)
Theorem recent_newest (tickets : list Ticket) :
  List.length (recent tickets) = Nat.min 5 (List.length tickets)
  /\ (exists others,
        Permutation (recent tickets ++ others) tickets
        /\ StronglySorted newestFirst (recent tickets ++ others))
  /\ (forall t, exists m,
        filter (createdAt t) (recent tickets)
        = firstn m (filter (createdAt t) tickets)).
Proof.
  unfold recent, slice0. repeat split.
  - rewrite length_firstn. now rewrite (Permutation_length (sort_perm _ _)).
  - exists (skipn 5 (sort byNewest tickets)). rewrite firstn_skipn.
    split; [apply sort_perm | apply byNewest_sorted].
  - intros t.
    destruct (filter_firstn (createdAt t) 5 (sort byNewest tickets))
      as [m Hm].
    exists m. now rewrite Hm, byNewest_stable.
Qed.

(** X5: a row shows at most two labels, the first ones, and the badge
    counts exactly the labels that are not shown; there is no badge when
    nothing is left out. *)
Theorem label_badges (ls : list string) :
  shownLabels ls = firstn 2 ls
  /\ (List.length (shownLabels ls) <= 2)%nat
  /\ (List.length (shownLabels ls)
      + match moreLabels ls with Some n => n | None => 0 end
      = List.length ls)%nat
  /\ (moreLabels ls = None <-> shownLabels ls = ls).
Proof.
  unfold shownLabels, slice0, moreLabels.
  split; [reflexivity|]. rewrite length_firstn.
  split; [lia|]. split.
  - destruct (Nat.ltb_spec 2 (List.length ls)); lia.
  - destruct (Nat.ltb_spec 2 (List.length ls)); split; intros Heq.
    + discriminate Heq.
    + apply (f_equal (@List.length string)) in Heq.
      rewrite length_firstn in Heq. lia.
    + now apply firstn_all2.
    + reflexivity.
Qed.

Lemma rows_None (ts : list Ticket) :
  rows ts = None <-> exists t, In t ts /\ labels t = None.
Proof.
  induction ts as [|t ts IH]; simpl.
  - split; [discriminate | intros [t [[] _]]].
  - unfold row. destruct (labels t) as [ls|] eqn:E.
    + destruct (rows ts) as [rs|].
      * split; [discriminate|].
        intros [x [[<-|Hx] Hl]]; [congruence|].
        assert (Hn : Some rs = None) by (apply IH; now exists x).
        discriminate Hn.
      * split; [|reflexivity]. intros _.
        destruct (proj1 IH eq_refl) as [x [Hx Hl]]. exists x. auto.
    + split; [|reflexivity]. intros _. exists t. auto.
Qed.

(** X6: with five tickets or fewer, drawing the recent issues fails (a
    [TypeError]) exactly when some ticket has no [labels] field, although
    the analytics above accept such a ticket. *)
Theorem render_needs_labels (tickets : list Ticket) :
  (List.length tickets <= 5)%nat ->
  (render tickets = None <-> exists t, In t tickets /\ labels t = None).
Proof.
  intros Hlen. unfold render. rewrite rows_None.
  assert (Hall : Permutation (recent tickets) tickets).
  { unfold recent, slice0. rewrite firstn_all2; [apply sort_perm|].
    now rewrite (Permutation_length (sort_perm _ _)). }
  split; intros [t [Hin Hl]]; exists t; split; auto.
  - now apply (Permutation_in _ Hall).
  - now apply (Permutation_in _ (Permutation_sym Hall)).
Qed.

End RecentTheorems.

Lemma render_needs_labels_witness :
  Recent.render [ticket "a@x.com" 5 ["xss"];
                 mkTicket "2" "t" "c" 7 "b@x.com" None] = None
  <-> exists t,
        In t [ticket "a@x.com" 5 ["xss"];
              mkTicket "2" "t" "c" 7 "b@x.com" None]
        /\ labels t = None.
Proof.
  apply (render_needs_labels
           [ticket "a@x.com" 5 ["xss"];
            mkTicket "2" "t" "c" 7 "b@x.com" None]).
  simpl. lia.
Defined.

(* ================================================================== *)
(** * Hiding and restoring tickets *)
(* ================================================================== *)

Section AppTheorems.
Import App.

Lemma filter_filter {A : Type} (p q : A -> bool) (l : list A) :
  filter p (filter q l) = filter (fun x => q x && p x) l.
Proof.
  induction l as [|x l IH]; simpl; [reflexivity|].
  destruct (q x); simpl; [|exact IH].
  destruct (p x); now rewrite IH.
Qed.

Lemma filter_true {A : Type} (p : A -> bool) (l : list A) :
  (forall x, In x l -> p x = true) -> filter p l = l.
Proof.
  induction l as [|x l IH]; simpl; intros H; [reflexivity|].
  rewrite (H x (or_introl eq_refl)). f_equal. apply IH. auto.
Qed.

Lemma find_Some_In {A : Type} (p : A -> bool) (l : list A) (x : A) :
  find p l = Some x -> In x l /\ p x = true.
Proof. apply find_some. Qed.

Lemma consistent_initial (data : list Ticket) : consistent data (initial data).
Proof.
  unfold consistent, initial, isHidden. simpl. repeat split.
  - symmetry. now apply filter_true.
  - constructor.
  - intros x [].
Qed.

Lemma consistent_step (data : list Ticket) (st : State) (e : Event) :
  consistent data st -> consistent data (step data st e).
Proof.
  intros (Hshow & Hnd & Hincl). destruct e as [i| |value]; simpl.
  - unfold handleHideItem.
    destruct (find (hasId i) (itemsToShow st)) as [item|] eqn:Hfind;
      [|now repeat split].
    apply find_Some_In in Hfind as [Hin Hid].
    unfold hasId in Hid. apply String.eqb_eq in Hid.
    assert (Hshown : In item data /\ isHidden st item = false).
    { rewrite Hshow in Hin. apply filter_In in Hin as [Hd Hh].
      now apply negb_true_iff in Hh. }
    destruct Hshown as [Hdata Hvisible].
    unfold consistent. cbn [itemsToShow hiddenItems]. repeat split.
    + rewrite Hshow, filter_filter. apply filter_ext. intros t.
      unfold isHidden at 2. cbn [hiddenItems].
      rewrite existsb_app. cbn [existsb]. rewrite orb_false_r, negb_orb.
      unfold isHidden, hasId. f_equal. f_equal.
      rewrite Hid. apply String.eqb_sym.
    + rewrite map_app. simpl.
      apply NoDup_app; [exact Hnd | repeat constructor; auto |].
      intros x Hx [<-|[]].
      apply in_map_iff in Hx as [h [Hh Hhin]].
      unfold isHidden in Hvisible.
      assert (existsb (fun hidden => String.eqb (id hidden) (id item))
                (hiddenItems st) = true); [|congruence].
      apply existsb_exists. exists h. split; [exact Hhin|].
      apply String.eqb_eq. congruence.
    + intros x Hx. apply in_app_or in Hx as [Hx|[<-|[]]]; auto.
  - unfold handleRestoreItems, consistent, isHidden. simpl. repeat split.
    + symmetry. now apply filter_true.
    + constructor.
    + intros x [].
  - unfold setSearch, consistent, isHidden. simpl. now repeat split.
Qed.


Lemma consistent_restore (tickets : list Ticket) (st : State) :
  consistent tickets (handleRestoreItems tickets st).
Proof. exact (consistent_initial tickets). Qed.

Lemma consistent_visits (events : list Visits.Event) (p : Visits.Page)
  (b : bool) :
  (b = true -> consistent (Visits.data p) (Visits.state p)) ->
  fold_left Visits.settles events b = true ->
  consistent (Visits.data (fold_left Visits.step events p))
             (Visits.state (fold_left Visits.step events p)).
Proof.
  revert p b. induction events as [|e events IH]; intros p b H; simpl.
  - exact H.
  - apply IH. destruct e as [[i| |value]|tickets|tickets]; simpl.
    + intros Hb. apply (consistent_step _ _ (Hide i)). auto.
    + intros _. apply consistent_restore.
    + intros Hb. apply (consistent_step _ _ (TypeSearch value)). auto.
    + intros _. apply consistent_initial.
    + discriminate.
Qed.

Lemma consistent_run (tickets : list Ticket) (events : list Visits.Event) :
  Visits.upToDate events = true ->
  consistent (Visits.data (Visits.run tickets events))
             (Visits.state (Visits.run tickets events)).
Proof.
  apply consistent_visits. intros _. apply consistent_initial.
Qed.

Lemma hidden_after_hide (st : State) (t item : Ticket) :
  find (hasId (id t)) (itemsToShow st) = Some item ->
  isHidden (handleHideItem st (id t)) t = true.
Proof.
  intros Hfind. unfold handleHideItem. rewrite Hfind.
  apply find_Some_In in Hfind as [_ Hid].
  unfold isHidden. cbn [hiddenItems]. rewrite existsb_app. cbn [existsb].
  unfold hasId in Hid. rewrite Hid. now rewrite orb_true_r.
Qed.

(** X7: on the dashboard page, whatever the user hid, restored and typed
    and whatever search results arrived, and also after page changes once
    Restore was clicked or a search result arrived, the tickets to show
    are exactly the tickets of the props whose id is not hidden, no id is
    hidden twice, and every hidden ticket is one of the props. *)
Theorem hidden_and_shown (tickets : list Ticket)
  (events : list Visits.Event) :
  Visits.upToDate events = true ->
  let p := Visits.run tickets events in
  let st := Visits.state p in
  itemsToShow st = filter (fun t => negb (isHidden st t)) (Visits.data p)
  /\ NoDup (map id (hiddenItems st))
  /\ incl (hiddenItems st) (Visits.data p).
Proof. intros H. now apply consistent_run. Qed.

(** X8: on the dashboard page, in the same states, the tickets displayed
    are the tickets to show that match the search text, and the Hide
    button of a displayed ticket finds it and takes it off the display. *)
Theorem displayed_can_be_hidden (tickets : list Ticket)
  (events : list Visits.Event) :
  Visits.upToDate events = true ->
  let p := Visits.run tickets events in
  let st := Visits.state p in
  ticketData (Visits.data p) st
  = filter (matchesSearch (search st)) (itemsToShow st)
  /\ forall t, In t (ticketData (Visits.data p) st) ->
       exists item,
         find (hasId (id t)) (itemsToShow st) = Some item
         /\ id item = id t
         /\ ~ In t (ticketData (Visits.data p) (handleHideItem st (id t))).
Proof.
  intros H. cbv zeta.
  destruct (consistent_run tickets events H) as (Hshow & _ & _).
  set (p := Visits.run tickets events) in *.
  set (st := Visits.state p) in *.
  assert (Heq : ticketData (Visits.data p) st
                = filter (matchesSearch (search st)) (itemsToShow st)).
  { unfold ticketData. rewrite Hshow, !filter_filter.
    apply filter_ext. intros t. apply andb_comm. }
  split; [exact Heq|].
  intros t Ht. rewrite Heq in Ht. apply filter_In in Ht as [Ht _].
  destruct (find (hasId (id t)) (itemsToShow st)) as [item|] eqn:Hfind.
  - exists item. split; [reflexivity|].
    pose proof (hidden_after_hide st t item Hfind) as Hh.
    apply find_Some_In in Hfind as [_ Hid].
    split; [now apply String.eqb_eq in Hid|].
    unfold ticketData. intros Hin. apply filter_In in Hin as [_ Hin].
    rewrite Hh in Hin. discriminate.
  - apply (find_none _ _ Hfind) in Ht. unfold hasId in Ht.
    now rewrite String.eqb_refl in Ht.
Qed.

Lemma NoDup_map_inj {A B : Type} (f : A -> B) (l : list A) (x y : A) :
  NoDup (map f l) -> In x l -> In y l -> f x = f y -> x = y.
Proof.
  induction l as [|a l IH]; simpl; intros Hnd Hx Hy Hf; [contradiction|].
  inversion Hnd as [|? ? Hnotin Hnd']; subst.
  destruct Hx as [<-|Hx], Hy as [<-|Hy]; auto.
  - elim Hnotin. rewrite Hf. now apply in_map.
  - elim Hnotin. rewrite <- Hf. now apply in_map.
Qed.


End AppTheorems.

Lemma hidden_and_shown_witness :
  let p := Visits.run [ticket "a@x.com" 1 []]
             [Visits.User (App.TypeSearch "t");
              Visits.PageLoaded
                [ticket "b@x.com" 2 [];
                 mkTicket "7" "t" "c" 3 "c@x.com" None];
              Visits.User (App.Hide "7"); Visits.User App.Restore;
              Visits.User (App.Hide "7")] in
  let st := Visits.state p in
  App.itemsToShow st
  = filter (fun t => negb (App.isHidden st t)) (Visits.data p)
  /\ NoDup (map id (App.hiddenItems st))
  /\ incl (App.hiddenItems st) (Visits.data p).
Proof.
  apply (hidden_and_shown [ticket "a@x.com" 1 []]
           [Visits.User (App.TypeSearch "t");
            Visits.PageLoaded
              [ticket "b@x.com" 2 [];
               mkTicket "7" "t" "c" 3 "c@x.com" None];
            Visits.User (App.Hide "7"); Visits.User App.Restore;
            Visits.User (App.Hide "7")]).
  reflexivity.
Defined.

Lemma displayed_can_be_hidden_witness :
  let p := Visits.run [ticket "a@x.com" 1 []]
             [Visits.User (App.Hide "");
              Visits.SearchLoaded
                [mkTicket "7" "Login fails" "c" 3 "c@x.com" None;
                 mkTicket "8" "t" "c" 4 "c@x.com" None];
              Visits.User (App.TypeSearch "LOGIN")] in
  let st := Visits.state p in
  App.ticketData (Visits.data p) st
  = filter (App.matchesSearch (App.search st)) (App.itemsToShow st)
  /\ forall t, In t (App.ticketData (Visits.data p) st) ->
       exists item,
         find (App.hasId (id t)) (App.itemsToShow st) = Some item
         /\ id item = id t
         /\ ~ In t (App.ticketData (Visits.data p)
                      (App.handleHideItem st (id t))).
Proof.
  apply (displayed_can_be_hidden [ticket "a@x.com" 1 []]
           [Visits.User (App.Hide "");
            Visits.SearchLoaded
              [mkTicket "7" "Login fails" "c" 3 "c@x.com" None;
               mkTicket "8" "t" "c" 4 "c@x.com" None];
            Visits.User (App.TypeSearch "LOGIN")]).
  reflexivity.
Defined.


(* ================================================================== *)
(** * From the search box to the query *)
(* ================================================================== *)

Section QueryTheorems.
Import Grammar Controller.

Variable tz : JsDate.TimeZone.

Lemma lowerChar_idempotent (c : ascii) : lowerChar (lowerChar c) = lowerChar c.
Proof. destruct c as [[] [] [] [] [] [] [] []]; reflexivity. Qed.

Lemma toLowerCase_idempotent (s : string) :
  toLowerCase (toLowerCase s) = toLowerCase s.
Proof.
  induction s as [|c s IH]; simpl; [reflexivity|].
  now rewrite lowerChar_idempotent, IH.
Qed.

Lemma noBlank_toLowerCase (s : string) :
  noBlank (toLowerCase s) = noBlank s.
Proof.
  induction s as [|c s IH]; simpl; [reflexivity|].
  now rewrite isWhiteSpace_lowerChar, IH.
Qed.

Lemma trimEnd_noBlank (s : string) : noBlank s = true -> trimEnd s = s.
Proof.
  induction s as [|c s IH]; [reflexivity|].
  cbn [noBlank]. intros [Hc Hs]%andb_true_iff.
  apply negb_true_iff in Hc.
  rewrite trimEnd_cons, (IH Hs), Hc. now destruct s.
Qed.

Lemma trim_noBlank (s : string) : noBlank s = true -> trim s = s.
Proof.
  intros H. unfold trim.
  assert (Hs : trimStart s = s).
  { destruct s as [|c s]; [reflexivity|].
    cbn [noBlank] in H. apply andb_true_iff in H as [Hc _].
    apply negb_true_iff in Hc. cbn [trimStart]. now rewrite Hc. }
  rewrite Hs. now apply trimEnd_noBlank.
Qed.

Lemma tokenTail_noBlank (s v r : string) :
  FilterRegex.tokenTail s = Some (v, r) -> noBlank v = true.
Proof.
  revert v r. induction s as [|c s IH]; intros v r; cbn [FilterRegex.tokenTail].
  - destruct (FilterRegex.rest ""); simpl; [|discriminate].
    now intros [= <- _].
  - destruct (isWhiteSpace c) eqn:Hc.
    + destruct (FilterRegex.rest (String c s)); simpl; [|discriminate].
      now intros [= <- _].
    + destruct (FilterRegex.tokenTail s) as [[v' r']|].
      * intros [= <- _]. cbn [noBlank]. rewrite Hc. simpl. now apply (IH v' r').
      * destruct (FilterRegex.rest (String c s)); simpl; [|discriminate].
        now intros [= <- _].
Qed.

Lemma token_isToken (s v r : string) :
  FilterRegex.token s = Some (v, r) -> isToken v = true.
Proof.
  unfold FilterRegex.token, isToken.
  destruct s as [|c s]; [discriminate|].
  destruct (isWhiteSpace c) eqn:Hc; [discriminate|].
  destruct (FilterRegex.tokenTail s) as [[v' r']|] eqn:E; simpl; [|discriminate].
  intros [= <- _]. cbn [isEmpty noBlank]. rewrite Hc. simpl.
  now apply (tokenTail_noBlank s v' r').
Qed.

(** The second capture of a match is a token. *)
Lemma exec_isToken (s q v r : string) :
  FilterRegex.exec s = Some (q, v, r) -> isToken v = true.
Proof.
  unfold FilterRegex.exec, FilterRegex.qualifiers. cbn [FilterRegex.firstMatch].
  assert (Halt : forall q0 m, FilterRegex.alternative q0 s = Some m ->
                              m = (q, v, r) -> isToken v = true).
  { intros q0 m. unfold FilterRegex.alternative.
    destruct (stripPrefix q0 s) as [[|c s1]|]; try discriminate.
    destruct (Ascii.eqb_spec c ":"%char) as [->|Hne].
    - destruct (FilterRegex.token s1) as [[v' r']|] eqn:E; simpl;
        [|discriminate].
      intros [= <-] [= _ <- _]. now apply (token_isToken s1 v' r').
    - destruct c as [[] [] [] [] [] [] [] []]; try discriminate.
      now elim Hne. }
  destruct (FilterRegex.alternative "before" s) eqn:E1;
    [intros [= ->]; eapply Halt; eauto|].
  destruct (FilterRegex.alternative "after" s) eqn:E2;
    [intros [= ->]; eapply Halt; eauto|].
  destruct (FilterRegex.alternative "reporter" s) eqn:E3;
    [intros [= ->]; eapply Halt; eauto | discriminate].
Qed.

(** X10: the text fields of a filter are normalized, whatever the input:
    [searchValue] has neither upper-case letters nor blanks at its ends, and
    a [reporterEmail] that is set is not empty, has no upper-case letter and
    no blank at all. *)
Theorem filter_normalized (s : string) :
  (forall v, searchValue (parse tz s) = Some v ->
             toLowerCase v = v /\ trim v = v)
  /\ (forall e, reporterEmail (parse tz s) = Some e ->
                isToken e = true /\ toLowerCase e = e).
Proof.
  assert (Hsv : forall r, toLowerCase (toLowerCase (trim r)) = toLowerCase (trim r)
                          /\ trim (toLowerCase (trim r)) = toLowerCase (trim r)).
  { intros r. split; [apply toLowerCase_idempotent|].
    now rewrite trim_toLowerCase, trim_idempotent. }
  unfold parse.
  destruct (FilterRegex.exec s) as [[[q v] r]|] eqn:E.
  - pose proof (exec_isToken s q v r E) as Hv.
    destruct (String.eqb q "before"); [|destruct (String.eqb q "after");
      [|destruct (String.eqb q "reporter")]]; cbn [searchValue reporterEmail];
      (split; [intros ? [= <-]; apply Hsv|]); try discriminate.
    intros e [= <-].
    unfold isToken in Hv. apply andb_true_iff in Hv as [Hne Hnb].
    rewrite (trim_noBlank v Hnb). split; [|apply toLowerCase_idempotent].
    unfold isToken. rewrite noBlank_toLowerCase, Hnb.
    destruct v; [discriminate Hne | reflexivity].
  - cbn [searchValue reporterEmail].
    split; [intros ? [= <-]; apply Hsv | discriminate].
Qed.

(** X12: a [before:] or [after:] qualifier with a token that is not a date
    and nothing but blanks behind it adds no condition either: the mistyped
    date is dropped and every ticket is listed. *)
Theorem invalid_date_unfiltered (q v r : string) :
  q = "before" \/ q = "after" ->
  isToken v = true -> noLineTerminator r = true -> trim r = EmptyString ->
  DateFns.isValid (DateFns.parse tz v) = false ->
  Query.build (parse tz (q ++ ":" ++ v ++ r)) = [].
Proof.
  intros Hq Hv Hr Hblank Hbad.
  assert (Hb : startsBlank r = true).
  { destruct r as [|c r]; [reflexivity|]. simpl.
    unfold trim in Hblank. cbn [trimStart] in Hblank.
    destruct (isWhiteSpace c) eqn:Hc; [reflexivity|].
    rewrite trimEnd_cons in Hblank. rewrite Hc in Hblank.
    now destruct (trimEnd r). }
  assert (Hin : In q FilterRegex.qualifiers)
    by (destruct Hq as [->| ->]; simpl; auto).
  unfold parse. rewrite (exec_qualified q v r Hin Hv Hb Hr).
  destruct (DateFns.parse tz v) as [t|]; [discriminate|].
  rewrite Hblank. destruct Hq as [->| ->]; reflexivity.
Qed.

End QueryTheorems.

Lemma invalid_date_unfiltered_witness :
  Query.build (Controller.parse 0 "after:2024-01-01  ") = [].
Proof.
  apply (invalid_date_unfiltered 0 "after" "2024-01-01" "  ");
    solve [auto | reflexivity].
Defined.

(* ================================================================== *)
(** * More on the analytics *)
(* ================================================================== *)

Local Open Scope nat_scope.

Section AnalyticsFacts.
Import Counting Totals JsArray.

Lemma length_setOwn (k : string) (v : JsObject.Value) (o : Obj) :
  List.length (setOwn k v o) = List.length o.
Proof.
  induction o as [|e o IH]; simpl; [reflexivity|].
  destruct (String.eqb (key e) k); simpl; now rewrite ?IH.
Qed.

Lemma length_increment (o : Obj) (k : string) :
  List.length (increment o k) <= S (List.length o).
Proof.
  unfold increment.
  destruct (getOwn k o) as [[n|]|]; rewrite ?length_setOwn; [lia..|].
  destruct (String.eqb k protoAccessor); [lia|].
  destruct (isPrototypeMember k); rewrite length_app; simpl; lia.
Qed.

Lemma length_countBy (l : list string) (o : Obj) :
  List.length (fold_left increment l o) <= List.length o + List.length l.
Proof.
  revert o. induction l as [|k l IH]; intros o; simpl; [lia|].
  specialize (IH (increment o k)). pose proof (length_increment o k). lia.
Qed.

Lemma startsLikeMonthKey_notInherited (k : string) :
  startsLikeMonthKey k = true -> notInherited k = true.
Proof.
  destruct k as [|c k]; [discriminate|].
  destruct c as [[] [] [] [] [] [] [] []]; simpl; try discriminate;
    reflexivity.
Qed.

Lemma ofZ_startsLikeMonthKey (z : Z) (rest : string) :
  startsLikeMonthKey (JsString.ofZ z ++ rest) = true.
Proof.
  unfold JsString.ofZ.
  destruct (Z.to_int z) as [d|d]; [|reflexivity].
  destruct d; reflexivity.
Qed.

Lemma monthKey_notInherited (tz : JsDate.TimeZone) (t : Z) :
  notInherited (monthKey tz t) = true.
Proof.
  apply startsLikeMonthKey_notInherited. unfold monthKey.
  destruct (JsDate.localYearMonth tz (JsDate.ofTime t)) as [[y m]|];
    [apply ofZ_startsLikeMonthKey | reflexivity].
Qed.

Lemma timelineData_tally (tz : JsDate.TimeZone) (tickets : list Ticket) :
  timelineData tz tickets = tally (monthKeys tz tickets).
Proof.
  unfold timelineData, monthKeys.
  rewrite (fold_left_map increment
             (fun t => monthKey tz (creationTime t)) tickets []).
  apply countBy_tally. apply forallb_forall. intros k Hk.
  apply in_map_iff in Hk as [t [<- _]]. apply monthKey_notInherited.
Qed.

Lemma list_sum_indicator (x : string) (ks : list string) :
  NoDup ks ->
  list_sum (map (fun k => if String.eqb x k then 1 else 0) ks)
  = if existsb (String.eqb x) ks then 1 else 0.
Proof.
  induction 1 as [|k ks Hnotin Hnd IH]; simpl; [reflexivity|].
  rewrite IH. destruct (String.eqb_spec x k) as [->|Hne]; simpl; [|reflexivity].
  destruct (existsb (String.eqb k) ks) eqn:E; [|reflexivity].
  apply existsb_eqb_In in E. contradiction.
Qed.

Lemma list_sum_map_add {A : Type} (f g : A -> nat) (l : list A) :
  list_sum (map (fun x => f x + g x) l)
  = list_sum (map f l) + list_sum (map g l).
Proof. induction l as [|x l IH]; simpl; lia. Qed.

(** The counters of a tally add up to the number of keys counted. *)
Lemma totalCount_tally (l : list string) : totalCount (tally l) = List.length l.
Proof.
  unfold totalCount, tally. rewrite map_map. cbn [countValue count].
  induction l as [|x l IH] using rev_ind; [reflexivity|].
  rewrite firstSeen_snoc, map_app, list_sum_app, length_app.
  rewrite (map_ext _ (fun k => occurrences k l
                               + (if String.eqb x k then 1 else 0)))
    by (intros k; apply occurrences_snoc).
  rewrite list_sum_map_add, IH, list_sum_indicator by apply NoDup_firstSeen.
  rewrite existsb_firstSeen.
  destruct (existsb (String.eqb x) l) eqn:E; simpl; [lia|].
  rewrite occurrences_snoc, String.eqb_refl, (occurrences_not_In _ _ E). lia.
Qed.

Lemma totalCount_perm (l l' : list Entry) :
  Permutation l l' -> totalCount l = totalCount l'.
Proof.
  intros H. unfold totalCount.
  induction H; simpl; lia.
Qed.

Lemma NoDup_keys_tally (l : list string) : NoDup (map key (tally l)).
Proof.
  unfold tally. rewrite map_map. cbn [key]. rewrite map_id.
  apply NoDup_firstSeen.
Qed.

End AnalyticsFacts.

Section CompareUnitsFacts.

Lemma compareUnits_antisym (a b : string) :
  (compareUnits a b = - compareUnits b a)%Z.
Proof.
  revert b. induction a as [|x a IH]; intros [|y b]; simpl; try reflexivity.
  rewrite (N.compare_antisym (code x) (code y)).
  destruct (N.compare (code x) (code y)); simpl; auto.
Qed.

Lemma compareUnits_trans (a b c : string) :
  (compareUnits a b <= 0 -> compareUnits b c <= 0 -> compareUnits a c <= 0)%Z.
Proof.
  revert b c. induction a as [|x a IH]; intros [|y b] [|z c]; simpl; try lia.
  destruct (N.compare_spec (code x) (code y)) as [Exy|Lxy|Gxy]; try lia;
    destruct (N.compare_spec (code y) (code z)) as [Eyz|Lyz|Gyz]; try lia;
    destruct (N.compare_spec (code x) (code z)) as [Exz|Lxz|Gxz]; try lia.
  apply IH.
Qed.

Lemma compareUnits_eq (a b : string) : compareUnits a b = 0%Z -> a = b.
Proof.
  revert b. induction a as [|x a IH]; intros [|y b]; simpl;
    try reflexivity; try discriminate.
  destruct (N.compare_spec (code x) (code y)) as [E| |]; try discriminate.
  intros H. f_equal; [|now apply IH].
  unfold code in E.
  rewrite <- (ascii_N_embedding x), <- (ascii_N_embedding y). now rewrite E.
Qed.

End CompareUnitsFacts.

Section AnalyticsTheorems.
Import Counting Totals JsArray.

Variable now : float.
Variable tz : JsDate.TimeZone.

Lemma byMonth_sorted (l : list Entry) :
  StronglySorted monthNotAfter (sort byMonthAscending l).
Proof.
  apply (sort_sorted byMonthAscending (fun _ => True));
    unfold notAfter, byMonthAscending, monthNotAfter.
  - intros x y _ _ H%Z.leb_le. exact H.
  - intros x y _ _ H%Z.leb_gt.
    rewrite (compareUnits_antisym (key y) (key x)). lia.
  - intros x y z _ _ _. apply compareUnits_trans.
  - apply Forall_forall. auto.
Qed.

(** Two sorted arrangements of the same elements are the same list, when
    the order tells the elements apart. *)
Lemma sorted_perm_eq {A : Type} (R : A -> A -> Prop) (l1 l2 : list A) :
  (forall x y, In x l1 -> In y l1 -> R x y -> R y x -> x = y) ->
  StronglySorted R l1 -> StronglySorted R l2 -> Permutation l1 l2 ->
  l1 = l2.
Proof.
  revert l2. induction l1 as [|x l1 IH]; intros l2 Hanti H1 H2 Hp.
  - apply Permutation_nil in Hp. now subst.
  - destruct l2 as [|y l2];
      [apply Permutation_sym, Permutation_nil in Hp; discriminate|].
    inversion H1 as [|? ? H1' Hx]; subst.
    inversion H2 as [|? ? H2' Hy]; subst.
    rewrite Forall_forall in Hx, Hy.
    assert (Exy : x = y).
    { assert (Hxin : In x (y :: l2))
        by (apply (Permutation_in _ Hp); now left).
      assert (Hyin : In y (x :: l1))
        by (apply (Permutation_in _ (Permutation_sym Hp)); now left).
      destruct Hxin as [->|Hxin]; [reflexivity|].
      destruct Hyin as [->|Hyin]; [reflexivity|].
      apply Hanti; simpl; auto. }
    subst y. f_equal. apply IH; auto.
    + intros a b Ha Hb. apply Hanti; simpl; auto.
    + now apply Permutation_cons_inv in Hp.
Qed.

(** X13: however the reporters are named, there are no more distinct
    reporters than tickets, and [topReporters] lists ten of them, or all of
    them when they are fewer. *)
Theorem reporters_bounds (tickets : list Ticket) :
  let a := aggregate now tz tickets in
  uniqueReporters (stats a) <= totalTickets (stats a)
  /\ List.length (topReporters a) = Nat.min 10 (uniqueReporters (stats a)).
Proof.
  cbv zeta. unfold aggregate.
  cbn [stats uniqueReporters totalTickets topReporters].
  unfold keysLength, slice0.
  rewrite length_firstn, (Permutation_length (sort_perm _ _)).
  split; [|reflexivity].
  rewrite (Permutation_length (entries_perm _)), reporterCounts_map.
  pose proof (length_countBy (allReporters tickets) []) as H.
  unfold allReporters in *. rewrite length_map in H. exact H.
Qed.

(** X14: the timeline has one point per month key, in ascending order of
    the keys, and its counts add up to the number of tickets: every ticket
    is in exactly one month. *)
Theorem timeline_totals (tickets : list Ticket) :
  let months := timeline (aggregate now tz tickets) in
  totalCount months = List.length tickets
  /\ NoDup (map key months)
  /\ StronglySorted monthNotAfter months
  /\ (forall k, In k (map key months) <-> In k (monthKeys tz tickets)).
Proof.
  cbv zeta. unfold aggregate. cbn [timeline].
  rewrite timelineData_tally.
  assert (Hperm : Permutation
                    (sort byMonthAscending (entries (tally (monthKeys tz tickets))))
                    (tally (monthKeys tz tickets)))
    by now rewrite sort_perm, entries_perm.
  repeat split.
  - rewrite (totalCount_perm _ _ Hperm), totalCount_tally.
    unfold monthKeys. apply length_map.
  - rewrite (Permutation_map key Hperm). apply NoDup_keys_tally.
  - apply byMonth_sorted.
  - intros Hk. apply (Permutation_in _ (Permutation_map key Hperm)) in Hk.
    unfold tally in Hk. rewrite map_map in Hk. cbn [key] in Hk.
    rewrite map_id in Hk. now apply In_firstSeen.
  - intros Hk.
    apply (Permutation_in _ (Permutation_sym (Permutation_map key Hperm))).
    unfold tally. rewrite map_map. cbn [key]. rewrite map_id.
    now apply In_firstSeen.
Qed.

(** X15: when no label is the name of a property of [Object.prototype]:
    with no label at all [labelData] is empty and [mostCommonLabel] is
    ["None"]; with a label [labelData] is not empty; and its first entry
    is a label no other label occurs more often than, with its number of
    occurrences, and [mostCommonLabel] is that label, or ["None"] when it
    is the empty text. *)
Theorem most_common_label (tickets : list Ticket) :
  forallb notInherited (allLabels tickets) = true ->
  let a := aggregate now tz tickets in
  let ls := allLabels tickets in
  (ls = [] -> labelData a = [] /\ mostCommonLabel (stats a) = "None"%string)
  /\ (ls <> [] -> exists e rest, labelData a = e :: rest)
  /\ (forall e rest,
        labelData a = e :: rest ->
        In (key e) ls
        /\ count e = Count (occurrences (key e) ls)
        /\ (forall k, occurrences k ls <= occurrences (key e) ls)
        /\ mostCommonLabel (stats a)
           = if isEmpty (key e) then "None"%string else key e).
Proof.
  intros H. cbv zeta.
  change (mostCommonLabel (stats (aggregate now tz tickets)))
    with (firstNameOrNone (labelData (aggregate now tz tickets))).
  destruct (sorted_counts _ H) as (Hperm & Hsort & _ & _).
  unfold aggregate at 1 2 3 4 5. cbn [labelData]. rewrite labelCounts_flat.
  set (out := sort byCountDescending
                (entries (fold_left increment (allLabels tickets) []))) in *.
  split; [|split].
  - intros Hnil. rewrite Hnil in Hperm. cbn in Hperm.
    apply Permutation_sym, Permutation_nil in Hperm. now rewrite Hperm.
  - intros Hls. destruct out as [|e rest]; [|now exists e, rest].
    destruct (allLabels tickets) as [|k ls'] eqn:Hl; [now elim Hls|].
    apply Permutation_sym in Hperm.
    elim (Permutation_in (mkEntry k (Count (occurrences k (k :: ls'))))
            Hperm).
    unfold tally. apply in_map_iff. exists k. split; [reflexivity|].
    apply (proj2 (In_firstSeen _ _)). now left.
  - intros e rest Hout. rewrite Hout in *.
    assert (He : In e (tally (allLabels tickets)))
      by (apply (Permutation_in _ Hperm); now left).
    unfold tally in He. apply in_map_iff in He as [k [<- Hk]].
    apply (proj1 (In_firstSeen _ _)) in Hk. cbn [key count].
    repeat split; auto.
    intros k'.
    destruct (existsb (String.eqb k') (allLabels tickets)) eqn:Hin;
      [|rewrite (occurrences_not_In _ _ Hin); lia].
    apply existsb_eqb_In in Hin.
    assert (He' : In (mkEntry k' (Count (occurrences k' (allLabels tickets))))
                     (mkEntry k (Count (occurrences k (allLabels tickets)))
                      :: rest)).
    { apply (Permutation_in _ (Permutation_sym Hperm)).
      unfold tally. apply in_map_iff. exists k'. split; [reflexivity|].
      now apply (proj2 (In_firstSeen _ _)). }
    destruct He' as [[= -> _]|He']; [lia|].
    inversion Hsort as [|? ? _ Hall]; subst.
    rewrite Forall_forall in Hall. apply (Hall _ He').
Qed.

End AnalyticsTheorems.

Section OrderIndependence.
Import Counting Totals JsArray.

Variable now : float.
Variable tz : JsDate.TimeZone.

Lemma forallb_perm {A : Type} (p : A -> bool) (l l' : list A) :
  Permutation l l' -> forallb p l = true -> forallb p l' = true.
Proof.
  intros Hp H. rewrite forallb_forall in *. intros x Hx.
  apply H. now apply (Permutation_in _ (Permutation_sym Hp)).
Qed.

Lemma tally_perm (l l' : list string) :
  Permutation l l' -> Permutation (tally l) (tally l').
Proof.
  intros Hp. unfold tally.
  rewrite (map_ext (fun k => mkEntry k (Count (occurrences k l)))
                   (fun k => mkEntry k (Count (occurrences k l')))).
  - apply Permutation_map. apply NoDup_Permutation; try apply NoDup_firstSeen.
    intros k. rewrite !In_firstSeen.
    split; apply Permutation_in; [exact Hp | now apply Permutation_sym].
  - intros k. unfold occurrences.
    now rewrite (proj1 (Permutation_count_occ string_dec l l') Hp).
Qed.

(** X16: the order of the tickets does not change what is counted (the
    recent issues sort, in place, the array the analytics read): for
    tickets in another order, if no label and no reporter is the name of a
    property of [Object.prototype], [labelData] has the same entries, the
    timeline is the same list, and the numbers of tickets and of distinct
    reporters are the same. *)
Theorem counts_order_independent (tickets tickets' : list Ticket) :
  Permutation tickets tickets' ->
  forallb notInherited (allLabels tickets) = true ->
  forallb notInherited (allReporters tickets) = true ->
  let a := aggregate now tz tickets in
  let a' := aggregate now tz tickets' in
  Permutation (labelData a) (labelData a')
  /\ timeline a = timeline a'
  /\ totalTickets (stats a) = totalTickets (stats a')
  /\ uniqueReporters (stats a) = uniqueReporters (stats a').
Proof.
  intros Hp Hl Hr. cbv zeta.
  assert (Hpl : Permutation (allLabels tickets) (allLabels tickets'))
    by (unfold allLabels; now apply Permutation_flat_map).
  assert (Hpr : Permutation (allReporters tickets) (allReporters tickets'))
    by (unfold allReporters; now apply Permutation_map).
  assert (Hpm : Permutation (monthKeys tz tickets) (monthKeys tz tickets'))
    by (unfold monthKeys; now apply Permutation_map).
  pose proof (forallb_perm _ _ _ Hpl Hl) as Hl'.
  pose proof (forallb_perm _ _ _ Hpr Hr) as Hr'.
  unfold aggregate.
  cbn [labelData timeline stats totalTickets uniqueReporters].
  repeat split.
  - rewrite !labelCounts_flat.
    destruct (sorted_counts _ Hl) as (H1 & _).
    destruct (sorted_counts _ Hl') as (H2 & _).
    cbv zeta in H1, H2. rewrite H1, H2. now apply tally_perm.
  - rewrite !timelineData_tally.
    apply (sorted_perm_eq monthNotAfter); try apply byMonth_sorted.
    + intros x y Hx Hy Hxy Hyx. unfold monthNotAfter in *.
      assert (Hkey : key x = key y).
      { apply compareUnits_eq.
        rewrite (compareUnits_antisym (key y) (key x)) in Hyx. lia. }
      assert (Hperm : Permutation
                        (sort byMonthAscending
                           (entries (tally (monthKeys tz tickets))))
                        (tally (monthKeys tz tickets)))
        by now rewrite sort_perm, entries_perm.
      apply (NoDup_map_inj key (tally (monthKeys tz tickets)));
        try (now apply (Permutation_in _ Hperm)); auto.
      apply NoDup_keys_tally.
    + rewrite !sort_perm, !entries_perm. now apply tally_perm.
  - now apply Permutation_length.
  - unfold keysLength. rewrite !reporterCounts_map.
    rewrite !(Permutation_length (entries_perm _)).
    rewrite (countBy_tally _ Hr), (countBy_tally _ Hr').
    apply Permutation_length. now apply tally_perm.
Qed.

End OrderIndependence.

Lemma most_common_label_witness :
  let tickets := [ticket "a@x.com" 1 ["xss"; "csrf"];
                  mkTicket "2" "t" "c" 2 "b@x.com" None;
                  ticket "c@x.com" 3 ["csrf"; "sqli"; "csrf"]] in
  let a := aggregate 1700000000000 0%Z tickets in
  let ls := Counting.allLabels tickets in
  (ls = [] -> labelData a = [] /\ mostCommonLabel (stats a) = "None"%string)
  /\ (ls <> [] -> exists e rest, labelData a = e :: rest)
  /\ (forall e rest,
        labelData a = e :: rest ->
        In (key e) ls
        /\ count e = Count (Counting.occurrences (key e) ls)
        /\ (forall k, Counting.occurrences k ls
                      <= Counting.occurrences (key e) ls)
        /\ mostCommonLabel (stats a)
           = if isEmpty (key e) then "None"%string else key e).
Proof.
  apply (most_common_label 1700000000000%float 0%Z
           [ticket "a@x.com" 1 ["xss"; "csrf"];
            mkTicket "2" "t" "c" 2 "b@x.com" None;
            ticket "c@x.com" 3 ["csrf"; "sqli"; "csrf"]]).
  reflexivity.
Defined.

Lemma counts_order_independent_witness :
  let tickets := [ticket "a@x.com" 1 ["xss"]; ticket "b@x.com" 9 ["csrf"]] in
  let tickets' := [ticket "b@x.com" 9 ["csrf"]; ticket "a@x.com" 1 ["xss"]] in
  let a := aggregate 1700000000000 0%Z tickets in
  let a' := aggregate 1700000000000 0%Z tickets' in
  Permutation (labelData a) (labelData a')
  /\ timeline a = timeline a'
  /\ totalTickets (stats a) = totalTickets (stats a')
  /\ uniqueReporters (stats a) = uniqueReporters (stats a').
Proof.
  apply (counts_order_independent 1700000000000%float 0%Z
           [ticket "a@x.com" 1 ["xss"]; ticket "b@x.com" 9 ["csrf"]]
           [ticket "b@x.com" 9 ["csrf"]; ticket "a@x.com" 1 ["xss"]]);
    [apply perm_swap | reflexivity | reflexivity].
Defined.

Example formatDate_samples :
  IsoDate.formatDate 0 = Some "1970-01-01 00:00:00"%string
  /\ IsoDate.formatDate 1709164799999 = Some "2024-02-28 23:59:59"%string
  /\ IsoDate.formatDate 1709164800000 = Some "2024-02-29 00:00:00"%string
  /\ IsoDate.formatDate (-1) = Some "1969-12-31 23:59:59"%string
  /\ IsoDate.formatDate (-62198755200000) = Some "-000001-01-01 00:00:00"%string
  /\ IsoDate.formatDate 253402300800000 = Some "+010000-01-01 00:00:00"%string
  /\ IsoDate.formatDate 8640000000000000 = Some "+275760-09-13 00:00:00"%string
  /\ IsoDate.formatDate 8640000000000001 = None.
Proof. repeat split; reflexivity. Qed.

(* ================================================================== *)
(** * The text of a date *)
(* ================================================================== *)

Local Open Scope Z_scope.

Section FormatDateTheorems.
Import IsoDate JsDate.

Lemma digit_cases (n : Z) :
  exists r, (r = 0 \/ r = 1 \/ r = 2 \/ r = 3 \/ r = 4 \/ r = 5 \/ r = 6
             \/ r = 7 \/ r = 8 \/ r = 9)
            /\ digit n = ascii_of_N (48 + Z.to_N r).
Proof.
  exists (n mod 10). split; [|reflexivity].
  pose proof (Z.mod_pos_bound n 10). lia.
Qed.

Ltac by_digit n :=
  let r := fresh "r" in
  let Hr := fresh "Hr" in
  let E := fresh "E" in
  destruct (digit_cases n) as [r [Hr E]]; rewrite E;
  repeat (destruct Hr as [->|Hr]; [reflexivity|]); subst r; reflexivity.

Lemma digit_isDigit (n : Z) : DateFns.isDigit (digit n) = true.
Proof. by_digit n. Qed.

Lemma digit_not_T (n : Z) : Ascii.eqb (digit n) "T" = false.
Proof. by_digit n. Qed.

Lemma append_assoc (a b c : string) :
  ((a ++ b) ++ c = a ++ (b ++ c))%string.
Proof. induction a as [|x a IH]; simpl; [reflexivity | now rewrite IH]. Qed.

Lemma length_append (a b : string) :
  String.length (a ++ b) = (String.length a + String.length b)%nat.
Proof. induction a as [|x a IH]; simpl; [reflexivity | now rewrite IH]. Qed.

Lemma lacks_append (c : ascii) (a b : string) :
  lacks c (a ++ b) = lacks c a && lacks c b.
Proof.
  induction a as [|x a IH]; simpl; [reflexivity|].
  now rewrite IH, andb_assoc.
Qed.

Lemma lacks_T_fixedDigits (w : nat) (n : Z) : lacks "T" (fixedDigits w n) = true.
Proof.
  revert n. induction w as [|w IH]; intros n; simpl; [reflexivity|].
  rewrite lacks_append, IH. simpl. now rewrite digit_not_T.
Qed.

Lemma length_fixedDigits (w : nat) (n : Z) :
  String.length (fixedDigits w n) = w.
Proof.
  revert n. induction w as [|w IH]; intros n; simpl; [reflexivity|].
  rewrite length_append, IH. simpl. lia.
Qed.

Lemma lacks_T_dateText (t : Z) : lacks "T" (dateText t) = true.
Proof.
  unfold dateText, yearText.
  rewrite !lacks_append, !lacks_T_fixedDigits.
  destruct ((0 <=? yearOf t) && (yearOf t <=? 9999)).
  - now rewrite lacks_T_fixedDigits.
  - cbn [lacks]. rewrite lacks_T_fixedDigits.
    now destruct (yearOf t <? 0).
Qed.

Lemma replaceFirst_at (c : ascii) (by_ a b : string) :
  lacks c a = true ->
  (replaceFirst c by_ (a ++ String c b) = a ++ by_ ++ b)%string.
Proof.
  induction a as [|x a IH]; simpl.
  - intros _. now rewrite Ascii.eqb_refl.
  - intros [Hx Ha]%andb_true_iff. apply negb_true_iff in Hx.
    now rewrite Hx, (IH Ha).
Qed.

Lemma isMillisTail_length (s : string) :
  isMillisTail s = true -> String.length s = 5%nat.
Proof.
  unfold isMillisTail.
  repeat (destruct s as [|? s]; try discriminate;
          try match goal with
            | |- context [match ?c with Ascii _ _ _ _ _ _ _ _ => _ end] =>
                destruct c as [[] [] [] [] [] [] [] []]; try discriminate
            end).
  reflexivity.
Qed.

Lemma dropMillis_append (a tail : string) :
  isMillisTail tail = true -> (dropMillis (a ++ tail) = a)%string.
Proof.
  intros Ht. induction a as [|x a IH].
  - simpl. destruct tail; simpl in *; [discriminate|]. now rewrite Ht.
  - cbn [append dropMillis].
    destruct (isMillisTail (String x (a ++ tail))) eqn:E.
    + apply isMillisTail_length in E. apply isMillisTail_length in Ht.
      cbn [String.length] in E. rewrite length_append in E. lia.
    + now rewrite IH.
Qed.

Lemma isMillisTail_fixedDigits (n : Z) :
  isMillisTail ("." ++ fixedDigits 3 n ++ "Z") = true.
Proof. simpl. now rewrite !digit_isDigit. Qed.

Lemma formatDate_unfold (t : Z) :
  formatDate t
  = if Z.abs t <=? maxTime
    then Some (dateText t ++ " " ++ timeText t)%string
    else None.
Proof.
  unfold formatDate, ofTime, timeClip.
  destruct (Z.abs t <=? maxTime); [|reflexivity].
  cbn [toISOString option_map]. f_equal.
  change (dateText t ++ "T" ++ timeText t ++ "." ++ fixedDigits 3 (t mod 1000)
          ++ "Z")%string
    with (dateText t
          ++ String "T" (timeText t ++ "." ++ fixedDigits 3 (t mod 1000) ++ "Z"))%string.
  rewrite (replaceFirst_at "T" " " _ _ (lacks_T_dateText t)).
  rewrite <- (append_assoc " " (timeText t)), <- (append_assoc (dateText t)).
  apply dropMillis_append, isMillisTail_fixedDigits.
Qed.

(** X17: for a time value a [Date] can hold, [formatDate] gives the UTC
    date, a space and the UTC time of day to the second; for any other it
    throws. *)
Theorem formatDate_text (t : Z) :
  formatDate t
  = if Z.abs t <=? maxTime
    then Some (dateText t ++ " " ++ timeText t)%string
    else None.
Proof.
  destruct (Z.leb_spec (Z.abs t) maxTime) as [Hin|Hout].
  - rewrite formatDate_unfold.
    now destruct (Z.leb_spec (Z.abs t) maxTime); [|lia].
  - unfold formatDate, ofTime, timeClip.
    now destruct (Z.leb_spec (Z.abs t) maxTime); [lia|].
Qed.

End FormatDateTheorems.

(* ================================================================== *)
(** * The calendar *)
(* ================================================================== *)

Ltac divs := Z.to_euclidean_division_equations; lia.

Section CalendarFacts.
Import IsoDate JsDate.

Lemma daysInMonth_bounds (y m d : Z) :
  1 <= m <= 12 -> 1 <= d <= daysInMonth y m ->
  d <= 31
  /\ (m = 4 \/ m = 6 \/ m = 9 \/ m = 11 -> d <= 30)
  /\ (m = 2 -> d <= 29)
  /\ (m = 2 -> d = 29 -> y mod 4 = 0 /\ (y mod 100 <> 0 \/ y mod 400 = 0)).
Proof.
  intros Hm Hd. unfold daysInMonth, isLeapYear in Hd.
  destruct (Z.eqb_spec m 2).
  - destruct (Z.eqb_spec (y mod 4) 0), (Z.eqb_spec (y mod 100) 0),
      (Z.eqb_spec (y mod 400) 0); simpl in Hd; lia.
  - destruct (Z.eqb_spec m 4), (Z.eqb_spec m 6), (Z.eqb_spec m 9),
      (Z.eqb_spec m 11); simpl in Hd; lia.
Qed.

(** The day number of a calendar day has that day's year, month and day. *)
Lemma civil_of_days (y m d : Z) :
  1 <= m <= 12 -> 1 <= d <= daysInMonth y m ->
  civilFromDays (daysFromCivil y m d) = (y, m)
  /\ dayOfMonth (daysFromCivil y m d) = d.
Proof.
  intros Hm Hd.
  destruct (daysInMonth_bounds y m d Hm Hd) as (H31 & H30 & H29 & Hleap).
  unfold civilFromDays, dayOfMonth, daysFromCivil. cbv zeta.
  remember (if m <=? 2 then y - 1 else y) as y' eqn:Ey'.
  assert (Hy' : (m <= 2 -> y' = y - 1) /\ (3 <= m -> y' = y))
    by (subst y'; destruct (Z.leb_spec m 2); lia).
  clear Ey'.
  remember (y' / 400) as era eqn:Eera.
  remember (y' - era * 400) as yoe eqn:Eyoe.
  assert (Hyoe : 0 <= yoe < 400) by (subst; divs).
  remember ((m + 9) mod 12) as mp eqn:Emp.
  assert (Hmp : (m <= 2 -> mp = m + 9) /\ (3 <= m -> mp = m - 3))
    by (subst mp; divs).
  clear Emp.
  remember ((153 * mp + 2) / 5) as base eqn:Ebase.
  remember (base + d - 1) as doy eqn:Edoy.
  assert (Hdoy : 0 <= doy <= 365
                 /\ (doy = 365 -> (yoe + 1) mod 4 = 0
                                  /\ ((yoe + 1) mod 100 <> 0 \/ yoe = 399))).
  { assert (Hm12 : m = 1 \/ m = 2 \/ 3 <= m) by lia.
    destruct Hm12 as [->|[->|H3]].
    - assert (mp = 10) by lia. subst mp. subst base doy. divs.
    - assert (mp = 11) by lia. subst mp.
      assert (Hb : base = 337) by (subst base; reflexivity).
      split; [lia|]. intros H365. assert (Hd29 : d = 29) by lia.
      destruct (Hleap eq_refl Hd29) as [L4 L100].
      assert (Hy1 : y = yoe + 1 + 400 * era) by lia.
      rewrite Hy1 in L4, L100. clear - L4 L100 Hyoe. divs.
    - assert (mp = m - 3) by lia. subst mp.
      assert (Hb : 0 <= doy <= 336).
      { subst base doy.
        assert (Hcases : m = 3 \/ m = 4 \/ m = 5 \/ m = 6 \/ m = 7 \/ m = 8
                         \/ m = 9 \/ m = 10 \/ m = 11 \/ m = 12) by lia.
        clear - Hcases H31 H30 Hd.
        destruct Hd as [Hd1 _].
        destruct Hcases as [->|[->|[->|[->|[->|[->|[->|[->|[->| ->]]]]]]]]];
          divs. }
      split; [lia|]. intros H365. lia. }
  remember (yoe * 365 + yoe / 4 - yoe / 100 + doy) as doe eqn:Edoe.
  assert (Hdoe : 0 <= doe <= 146096) by (subst doe; clear - Hyoe Hdoy; divs).
  replace (era * 146097 + doe - 719468 + 719468) with (doe + era * 146097)
    by lia.
  rewrite Z.div_add by lia. rewrite (Z.div_small doe) by lia.
  replace (doe + era * 146097 - (0 + era) * 146097) with doe by lia.
  assert (Hy : (doe - doe / 1460 + doe / 36524 - doe / 146096) / 365 = yoe).
  { subst doe. clear - Hyoe Hdoy. divs. }
  rewrite Hy.
  replace (doe - (365 * yoe + yoe / 4 - yoe / 100)) with doy by lia.
  assert (Hmp2 : (5 * doy + 2) / 153 = mp /\ (153 * mp + 2) / 5 = base).
  { split; [|now subst base].
    assert (Hcases : m = 1 \/ m = 2 \/ m = 3 \/ m = 4 \/ m = 5 \/ m = 6
                     \/ m = 7 \/ m = 8 \/ m = 9 \/ m = 10 \/ m = 11 \/ m = 12)
      by lia.
    destruct Hcases as [->|[->|[->|[->|[->|[->|[->|[->|[->|[->|[->| ->]]]]]]]]]]];
      (assert (Emp : mp = 10 \/ mp = 11 \/ mp = 0 \/ mp = 1 \/ mp = 2 \/ mp = 3
                     \/ mp = 4 \/ mp = 5 \/ mp = 6 \/ mp = 7 \/ mp = 8
                     \/ mp = 9) by lia);
      subst doy base; clear - Emp H31 H30 H29 Hd Hmp; divs. }
  destruct Hmp2 as [Hmp2 Hbase]. rewrite Hmp2, Hbase.
  split.
  - f_equal.
    + destruct (Z.ltb_spec mp 10);
        match goal with |- context [if ?c then _ else _] =>
          destruct c eqn:E end;
        try (apply Z.leb_le in E); try (apply Z.leb_gt in E); lia.
    + destruct (Z.ltb_spec mp 10); lia.
  - lia.
Qed.

(** The year, month and day of a day number form a calendar day, whose day
    number it is. *)
Lemma days_of_civil (z : Z) :
  let (y, m) := civilFromDays z in
  let d := dayOfMonth z in
  1 <= m <= 12 /\ 1 <= d <= daysInMonth y m /\ daysFromCivil y m d = z.
Proof.
  unfold civilFromDays, dayOfMonth. cbv zeta.
  remember ((z + 719468) / 146097) as era eqn:Eera.
  remember (z + 719468 - era * 146097) as doe eqn:Edoe.
  assert (Hdoe : 0 <= doe <= 146096) by (subst; divs).
  remember ((doe - doe / 1460 + doe / 36524 - doe / 146096) / 365) as yoe eqn:Eyoe.
  assert (Hyoe : 0 <= yoe <= 399) by (subst yoe; clear - Hdoe; divs).
  remember (doe - (365 * yoe + yoe / 4 - yoe / 100)) as doy eqn:Edoy.
  assert (Hdoy : 0 <= doy <= 365
                 /\ (doy = 365 -> (yoe + 1) mod 4 = 0
                                  /\ ((yoe + 1) mod 100 <> 0 \/ yoe = 399))).
  { subst doy yoe. clear - Hdoe. divs. }
  remember ((5 * doy + 2) / 153) as mp eqn:Emp.
  assert (Hmp : 0 <= mp <= 11) by (subst mp; clear - Hdoy; divs).
  remember (doy - (153 * mp + 2) / 5 + 1) as d eqn:Ed.
  remember (if mp <? 10 then mp + 3 else mp - 9) as m eqn:Em.
  assert (Hm : (mp < 10 -> m = mp + 3) /\ (10 <= mp -> m = mp - 9))
    by (subst m; destruct (Z.ltb_spec mp 10); lia).
  clear Em.
  remember (if m <=? 2 then yoe + era * 400 + 1 else yoe + era * 400) as y eqn:Ey.
  assert (Hy : (m <= 2 -> y = yoe + era * 400 + 1) /\ (3 <= m -> y = yoe + era * 400))
    by (subst y; destruct (Z.leb_spec m 2); lia).
  clear Ey.
  split; [lia|].
  assert (Hd : 1 <= d <= 31
               /\ (m = 4 \/ m = 6 \/ m = 9 \/ m = 11 -> d <= 30)
               /\ (m = 2 -> d <= 29)
               /\ (m = 2 -> d = 29 -> doy = 365)).
  { subst d mp. clear - Hdoy Hm. divs. }
  split.
  - unfold daysInMonth, isLeapYear.
    destruct (Z.eqb_spec m 2) as [E2|N2].
    + assert (Hy1 : y = yoe + 1 + 400 * era) by lia.
      destruct Hd as (Hd1 & _ & H29 & Hl).
      destruct (Z.eq_dec d 29) as [E29|N29].
      * destruct Hdoy as [_ Hleap]. specialize (Hleap (Hl E2 E29)).
        assert (y mod 4 = 0 /\ (y mod 100 <> 0 \/ y mod 400 = 0))
          by (rewrite Hy1; clear - Hleap Hyoe; divs).
        destruct (Z.eqb_spec (y mod 4) 0), (Z.eqb_spec (y mod 100) 0),
          (Z.eqb_spec (y mod 400) 0); simpl; lia.
      * destruct ((y mod 4 =? 0) && (negb (y mod 100 =? 0) || (y mod 400 =? 0)));
          lia.
    + destruct (Z.eqb_spec m 4), (Z.eqb_spec m 6), (Z.eqb_spec m 9),
        (Z.eqb_spec m 11); simpl; lia.
  - unfold daysFromCivil. cbv zeta.
    remember (if m <=? 2 then y - 1 else y) as y' eqn:Ey'.
    assert (Hy' : y' = yoe + era * 400)
      by (subst y'; destruct (Z.leb_spec m 2); lia).
    clear Ey'.
    assert (He : y' / 400 = era) by (subst y'; clear - Hyoe; divs).
    rewrite He.
    replace (y' - era * 400) with yoe by lia.
    assert (Hmp' : (m + 9) mod 12 = mp) by (clear - Hm Hmp; divs).
    rewrite Hmp'. lia.
Qed.

End CalendarFacts.

(* ================================================================== *)
(** * Dates, typed and printed *)
(* ================================================================== *)

Section FormatDateRoundTrip.
Import IsoDate JsDate.

Lemma time_fields (t : Z) :
  let y := yearOf t in
  let m := monthOf t in
  let d := dayOfMonth (t / msPerDay) in
  let h := t / 3600000 mod 24 in
  let mi := t / 60000 mod 60 in
  let s := t / 1000 mod 60 in
  1 <= m <= 12 /\ 1 <= d <= daysInMonth y m
  /\ 0 <= h < 24 /\ 0 <= mi < 60 /\ 0 <= s < 60
  /\ daysFromCivil y m d * msPerDay + h * 3600000 + mi * 60000 + s * 1000
     = 1000 * (t / 1000).
Proof.
  cbv zeta. unfold yearOf, monthOf.
  pose proof (days_of_civil (t / msPerDay)) as H.
  destruct (civilFromDays (t / msPerDay)) as [y m]. cbv zeta in H.
  destruct H as (Hm & Hd & Hz). cbn [fst snd].
  rewrite Hz. split; [exact Hm|]. split; [exact Hd|]. unfold msPerDay.
  replace (t / 86400000) with (t / 1000 / 60 / 60 / 24)
    by (rewrite !Z.div_div by lia; reflexivity).
  replace (t / 3600000) with (t / 1000 / 60 / 60)
    by (rewrite !Z.div_div by lia; reflexivity).
  replace (t / 60000) with (t / 1000 / 60)
    by (rewrite !Z.div_div by lia; reflexivity).
  repeat split; try lia; try divs.
Qed.

(** X18: the fields [formatDate] prints are a calendar day and a time of
    day, and they stand for the time value rounded down to the second. *)
Theorem formatDate_fields (t : Z) :
  let y := yearOf t in
  let m := monthOf t in
  let d := dayOfMonth (t / msPerDay) in
  let h := t / 3600000 mod 24 in
  let mi := t / 60000 mod 60 in
  let s := t / 1000 mod 60 in
  1 <= m <= 12 /\ 1 <= d <= daysInMonth y m
  /\ 0 <= h < 24 /\ 0 <= mi < 60 /\ 0 <= s < 60
  /\ daysFromCivil y m d * msPerDay + h * 3600000 + mi * 60000 + s * 1000
     = 1000 * (t / 1000).
Proof.
  cbv zeta. pose proof (time_fields t) as H. cbv zeta in H.
  destruct H as (Hm & Hd & Hh & Hmi & Hs & E). repeat split; lia.
Qed.

Lemma same_second_div (t t' k : Z) :
  0 < k -> t / 1000 = t' / 1000 -> t / (1000 * k) = t' / (1000 * k).
Proof.
  intros Hk H. rewrite <- !Z.div_div by lia. now rewrite H.
Qed.

Lemma same_second_text (t t' : Z) :
  t / 1000 = t' / 1000 ->
  dateText t = dateText t' /\ timeText t = timeText t'.
Proof.
  intros H.
  assert (Hd : t / msPerDay = t' / msPerDay)
    by (apply (same_second_div t t' 86400); [lia | exact H]).
  assert (Hh : t / 3600000 = t' / 3600000)
    by (apply (same_second_div t t' 3600); [lia | exact H]).
  assert (Hm : t / 60000 = t' / 60000)
    by (apply (same_second_div t t' 60); [lia | exact H]).
  unfold dateText, timeText, yearOf, monthOf. now rewrite Hd, Hh, Hm, H.
Qed.


Lemma year_of_day_bounds (z : Z) :
  (-100000000 <= z <= 100000000 -> -271821 <= fst (civilFromDays z) <= 275760)
  /\ (-719528 <= z <= 2932896 -> 0 <= fst (civilFromDays z) <= 9999).
Proof.
  unfold civilFromDays. cbv zeta. cbn [fst].
  match goal with |- context [Z.ltb ?a ?b] => destruct (Z.ltb_spec a b) end;
    match goal with |- context [Z.leb ?a ?b] => destruct (Z.leb_spec a b) end;
    split; intros Hz; divs.
Qed.

Lemma year_bounds (t : Z) :
  Z.abs t <= maxTime -> -271821 <= yearOf t <= 275760.
Proof.
  unfold maxTime, yearOf, msPerDay. intros H.
  apply (proj1 (year_of_day_bounds _)). divs.
Qed.

Lemma year_four_digits (t : Z) :
  -62167219200000 <= t <= 253402300799999 -> 0 <= yearOf t <= 9999.
Proof.
  unfold yearOf, msPerDay. intros H.
  apply (proj2 (year_of_day_bounds _)). divs.
Qed.


Lemma append_inj_l (a a' b b' : string) :
  String.length a = String.length a' ->
  (a ++ b = a' ++ b')%string -> a = a' /\ b = b'.
Proof.
  revert a'. induction a as [|x a IH]; intros [|x' a']; simpl;
    try discriminate; [auto|].
  intros [= Hl] [= -> H]. destruct (IH a' Hl H) as [-> ->]. auto.
Qed.

Lemma append_inj_r (a a' b b' : string) :
  String.length b = String.length b' ->
  (a ++ b = a' ++ b')%string -> a = a' /\ b = b'.
Proof.
  intros Hl H. apply append_inj_l; [|exact H].
  apply (f_equal String.length) in H. rewrite !length_append in H. lia.
Qed.

Lemma digit_inj (a b : Z) : digit a = digit b -> a mod 10 = b mod 10.
Proof.
  unfold digit. intros H. apply (f_equal N_of_ascii) in H.
  pose proof (Z.mod_pos_bound a 10). pose proof (Z.mod_pos_bound b 10).
  rewrite !N_ascii_embedding in H by lia. lia.
Qed.

Lemma fixedDigits_inj (w : nat) (a b : Z) :
  fixedDigits w a = fixedDigits w b ->
  a mod 10 ^ Z.of_nat w = b mod 10 ^ Z.of_nat w.
Proof.
  revert a b. induction w as [|w IH]; intros a b H.
  - now rewrite !Z.mod_1_r.
  - cbn [fixedDigits] in H.
    apply append_inj_r in H as [Hhi Hlo]; [|reflexivity].
    injection Hlo as Hlo. apply digit_inj in Hlo. apply IH in Hhi.
    rewrite Nat2Z.inj_succ, Z.pow_succ_r by lia.
    rewrite !(Z.rem_mul_r _ 10) by lia. now rewrite Hlo, Hhi.
Qed.

Lemma fixedDigits_inj_small (w : nat) (a b : Z) :
  0 <= a < 10 ^ Z.of_nat w -> 0 <= b < 10 ^ Z.of_nat w ->
  fixedDigits w a = fixedDigits w b -> a = b.
Proof.
  intros Ha Hb H. apply fixedDigits_inj in H.
  now rewrite !Z.mod_small in H.
Qed.

Lemma yearText_inj (y y' : Z) :
  Z.abs y < 1000000 -> Z.abs y' < 1000000 ->
  yearText y = yearText y' -> y = y'.
Proof.
  unfold yearText. intros Hy Hy' H.
  destruct (Z.leb_spec 0 y), (Z.leb_spec y 9999),
    (Z.leb_spec 0 y'), (Z.leb_spec y' 9999); cbn [andb] in H;
    try (apply (f_equal String.length) in H; cbn [String.length] in H;
         rewrite !length_fixedDigits in H; discriminate H);
    try (apply (fixedDigits_inj_small 4) in H; [exact H | simpl; lia..]);
    destruct (Z.ltb_spec y 0), (Z.ltb_spec y' 0); try lia;
    try (apply (f_equal (fun s => match s with
                                  | String c _ => c
                                  | EmptyString => "0"%char
                                  end)) in H; discriminate H);
    apply (f_equal (fun s => match s with
                             | String _ r => r
                             | EmptyString => s
                             end)) in H;
    apply (fixedDigits_inj_small 6) in H; simpl; lia.
Qed.


Lemma String_tail_eq (c c' : ascii) (a b : string) :
  String c a = String c' b -> a = b.
Proof. now intros [= _ H]. Qed.

Lemma length_timeText (t : Z) : String.length (timeText t) = 8%nat.
Proof.
  unfold timeText. rewrite !length_append, !length_fixedDigits. reflexivity.
Qed.

Lemma three_fields (a b c a' b' c' : Z) (sep : ascii) :
  (fixedDigits 2 a ++ String sep (fixedDigits 2 b ++ String sep (fixedDigits 2 c))
   = fixedDigits 2 a' ++ String sep (fixedDigits 2 b' ++ String sep (fixedDigits 2 c')))%string ->
  fixedDigits 2 a = fixedDigits 2 a' /\ fixedDigits 2 b = fixedDigits 2 b'
  /\ fixedDigits 2 c = fixedDigits 2 c'.
Proof.
  intros H.
  apply append_inj_l in H as [Ha H]; [|now rewrite !length_fixedDigits].
  apply String_tail_eq in H.
  apply append_inj_l in H as [Hb H]; [|now rewrite !length_fixedDigits].
  apply String_tail_eq in H. auto.
Qed.

(** Texts of the same shape come from the same second. *)
Lemma text_same_second (t t' : Z) :
  Z.abs t <= maxTime -> Z.abs t' <= maxTime ->
  (dateText t ++ " " ++ timeText t = dateText t' ++ " " ++ timeText t')%string ->
  t / 1000 = t' / 1000.
Proof.
  intros Ht Ht' H.
  apply append_inj_r in H as [Hdate Htime];
    [|cbn [append String.length]; now rewrite !length_timeText].
  apply String_tail_eq in Htime.
  unfold timeText in Htime. apply three_fields in Htime as (Hh & Hmi & Hs).
  unfold dateText in Hdate.
  apply append_inj_r in Hdate as [Hy Hmd];
    [|cbn [append String.length];
      rewrite !length_append; cbn [String.length];
      now rewrite !length_fixedDigits].
  apply String_tail_eq in Hmd.
  apply append_inj_l in Hmd as [Hm Hd]; [|now rewrite !length_fixedDigits].
  apply String_tail_eq in Hd.
  pose proof (year_bounds t Ht) as By. pose proof (year_bounds t' Ht') as By'.
  apply yearText_inj in Hy; [|lia..].
  pose proof (time_fields t) as F. pose proof (time_fields t') as F'.
  cbv zeta in F, F'.
  destruct F as (Bm & Bd & Bh & Bmi & Bs & E).
  destruct F' as (Bm' & Bd' & Bh' & Bmi' & Bs' & E').
  assert (Bd31 : dayOfMonth (t / msPerDay) <= 31).
  { destruct (daysInMonth_bounds _ _ _ Bm Bd) as (H31 & _). exact H31. }
  assert (Bd31' : dayOfMonth (t' / msPerDay) <= 31).
  { destruct (daysInMonth_bounds _ _ _ Bm' Bd') as (H31 & _). exact H31. }
  apply (fixedDigits_inj_small 2) in Hm; [|simpl; lia..].
  apply (fixedDigits_inj_small 2) in Hd; [|simpl; lia..].
  apply (fixedDigits_inj_small 2) in Hh; [|simpl; lia..].
  apply (fixedDigits_inj_small 2) in Hmi; [|simpl; lia..].
  apply (fixedDigits_inj_small 2) in Hs; [|simpl; lia..].
  rewrite Hy, Hm, Hd, Hh, Hmi, Hs in E. lia.
Qed.

(** X19: two time values a [Date] can hold have the same text exactly when
    they lie in the same second: the milliseconds are not shown, and nothing
    else is lost. *)
Theorem formatDate_same_second (t t' : Z) :
  Z.abs t <= maxTime -> Z.abs t' <= maxTime ->
  (formatDate t = formatDate t' <-> t / 1000 = t' / 1000).
Proof.
  intros Ht Ht'. rewrite !formatDate_unfold.
  destruct (Z.leb_spec (Z.abs t) maxTime); [|lia].
  destruct (Z.leb_spec (Z.abs t') maxTime); [|lia].
  split.
  - intros [= Heq]. now apply text_same_second.
  - intros Heq. destruct (same_second_text t t' Heq) as [-> ->]. reflexivity.
Qed.

(** X20: from the year 0 to the year 9999 the text has 19 characters. *)
Theorem formatDate_width (t : Z) :
  -62167219200000 <= t <= 253402300799999 ->
  exists text, formatDate t = Some text /\ String.length text = 19%nat.
Proof.
  intros H. rewrite formatDate_unfold.
  destruct (Z.leb_spec (Z.abs t) maxTime); [|unfold maxTime in *; lia].
  eexists. split; [reflexivity|].
  pose proof (year_four_digits t H) as Hy.
  unfold dateText, yearText.
  destruct (Z.leb_spec 0 (yearOf t)); [|lia].
  destruct (Z.leb_spec (yearOf t) 9999); [|lia].
  cbn [andb]. rewrite !length_append, length_timeText, !length_fixedDigits.
  reflexivity.
Qed.


Lemma digitValue_bounds (c : ascii) :
  DateFns.isDigit c = true -> 0 <= DateFns.digitValue c <= 9.
Proof.
  unfold DateFns.isDigit, DateFns.digitValue.
  intros [H1 H2]%andb_true_iff.
  apply N.leb_le in H1. apply N.leb_le in H2. lia.
Qed.

Lemma moreDigits_bounds (n : nat) (acc : Z) (s : string) (v : Z) (rest : string) :
  0 <= acc -> DateFns.moreDigits n acc s = (v, rest) ->
  0 <= v < (acc + 1) * 10 ^ Z.of_nat n.
Proof.
  revert acc s. induction n as [|n IH]; intros acc s Hacc H.
  - destruct s; injection H as <- _; simpl; lia.
  - assert (Hp : 0 < 10 ^ Z.of_nat n) by (apply Z.pow_pos_nonneg; lia).
    rewrite Nat2Z.inj_succ, Z.pow_succ_r by lia.
    destruct s as [|c s]; cbn [DateFns.moreDigits] in H.
    + injection H as <- _. nia.
    + destruct (DateFns.isDigit c) eqn:Hc.
      * pose proof (digitValue_bounds c Hc).
        apply IH in H; [|lia]. nia.
      * injection H as <- _. nia.
Qed.

Lemma digits_bounds (n : nat) (s : string) (v : Z) (rest : string) :
  (1 <= n)%nat -> DateFns.digits n s = Some (v, rest) ->
  0 <= v < 10 ^ Z.of_nat n.
Proof.
  intros Hn. unfold DateFns.digits.
  destruct s as [|c s]; [discriminate|].
  destruct (DateFns.isDigit c) eqn:Hc; [|discriminate].
  intros [= H]. pose proof (digitValue_bounds c Hc).
  apply moreDigits_bounds in H; [|lia].
  assert (Hp : 0 < 10 ^ Z.of_nat (Nat.pred n)) by (apply Z.pow_pos_nonneg; lia).
  replace (Z.of_nat n) with (Z.succ (Z.of_nat (Nat.pred n))) by lia.
  rewrite Z.pow_succ_r by lia. nia.
Qed.

(** What [parseDay] accepts is a calendar day of the years 1 to 9999. *)
Lemma parseDay_valid (text : string) (y m d : Z) :
  DateFns.parseDay text = Some (y, m, d) ->
  1 <= y <= 9999 /\ 1 <= m <= 12 /\ 1 <= d <= daysInMonth y m.
Proof.
  unfold DateFns.parseDay.
  destruct (DateFns.digits 2 text) as [[d0 s1]|]; [|discriminate].
  destruct (DateFns.slash s1) as [s2|]; [|discriminate].
  destruct (DateFns.digits 2 s2) as [[m0 s3]|]; [|discriminate].
  destruct (DateFns.slash s3) as [s4|]; [|discriminate].
  destruct (DateFns.digits 4 s4) as [[y0 s5]|] eqn:Ey; [|discriminate].
  destruct (DateFns.allBlank s5 && (0 <? y0) && (1 <=? m0) && (m0 <=? 12)
            && (1 <=? d0) && (d0 <=? daysInMonth y0 m0)) eqn:Hc;
    [|discriminate].
  intros [= <- <- <-].
  repeat (apply andb_true_iff in Hc as [Hc ?]).
  apply digits_bounds in Ey; [|lia]. simpl in Ey. lia.
Qed.

Lemma daysFromCivil_bounds (y m d : Z) :
  1 <= y <= 9999 -> 1 <= m <= 12 -> 1 <= d <= 31 ->
  -719528 <= daysFromCivil y m d <= 2932896.
Proof.
  intros Hy Hm Hd. unfold daysFromCivil. cbv zeta.
  destruct (Z.leb_spec m 2); divs.
Qed.

Lemma timeText_midnight (z : Z) : timeText (z * msPerDay) = "00:00:00"%string.
Proof.
  unfold timeText, msPerDay.
  replace (z * 86400000 / 3600000) with (z * 24)
    by (replace (z * 86400000) with (z * 24 * 3600000) by lia;
        now rewrite Z.div_mul).
  replace (z * 86400000 / 60000) with (z * 24 * 60)
    by (replace (z * 86400000) with (z * 24 * 60 * 60000) by lia;
        now rewrite Z.div_mul).
  replace (z * 86400000 / 1000) with (z * 24 * 60 * 60)
    by (replace (z * 86400000) with (z * 24 * 60 * 60 * 1000) by lia;
        now rewrite Z.div_mul).
  now rewrite !Z.mod_mul.
Qed.

(** The instant date-fns gives for a text is local midnight of the day the
    text denotes. *)
Lemma typed_date_local_midnight (tz : TimeZone) (text : string) (t : Z) :
  DateFns.parse tz text = Some t ->
  exists y m d,
    DateFns.parseDay text = Some (y, m, d)
    /\ localYearMonth tz (Some t) = Some (y, m)
    /\ formatDate (t + tz * msPerMinute)
       = Some (fixedDigits 4 y ++ "-" ++ fixedDigits 2 m ++ "-"
               ++ fixedDigits 2 d ++ " 00:00:00")%string.
Proof.
  unfold DateFns.parse.
  destruct (DateFns.parseDay text) as [[[y m] d]|] eqn:E; [|discriminate].
  unfold localMidnight, timeClip.
  destruct (Z.abs _ <=? maxTime); [|discriminate].
  intros [= <-]. exists y, m, d. split; [reflexivity|].
  destruct (parseDay_valid text y m d E) as (Hy & Hm & Hd).
  destruct (civil_of_days y m d Hm Hd) as [Hciv Hday].
  assert (H31 : d <= 31)
    by (destruct (daysInMonth_bounds y m d Hm Hd) as (H31 & _); exact H31).
  pose proof (daysFromCivil_bounds y m d Hy Hm ltac:(lia)) as HD.
  set (D := daysFromCivil y m d) in *.
  replace (D * msPerDay - tz * msPerMinute + tz * msPerMinute)
    with (D * msPerDay) by lia.
  assert (Hdiv : D * msPerDay / msPerDay = D)
    by (apply Z.div_mul; unfold msPerDay; lia).
  split.
  - unfold localYearMonth.
    replace (D * msPerDay - tz * msPerMinute + tz * msPerMinute)
      with (D * msPerDay) by lia.
    now rewrite Hdiv, Hciv.
  - rewrite formatDate_unfold.
    destruct (Z.leb_spec (Z.abs (D * msPerDay)) maxTime);
      [|unfold msPerDay, maxTime in *; lia].
    f_equal. rewrite timeText_midnight.
    unfold dateText, yearOf, monthOf, yearText. rewrite Hdiv, Hciv, Hday.
    cbn [fst snd].
    destruct (Z.leb_spec 0 y); [|lia]. destruct (Z.leb_spec y 9999); [|lia].
    cbn [andb]. now rewrite !append_assoc.
Qed.

(** X21: a [beforeDate] the parser sets is always local midnight of a
    calendar day: its local year and month, which the dashboard would put
    in the month key, and its local reading as [formatDate] prints it, are
    those of a day at 00:00:00. *)
Theorem beforeDate_local_midnight (tz : TimeZone) (s : string) (t : Z) :
  Controller.beforeDate (Controller.parse tz s) = Some t ->
  exists y m d,
    localYearMonth tz (Some t) = Some (y, m)
    /\ formatDate (t + tz * msPerMinute)
       = Some (fixedDigits 4 y ++ "-" ++ fixedDigits 2 m ++ "-"
               ++ fixedDigits 2 d ++ " 00:00:00")%string.
Proof.
  unfold Controller.parse.
  destruct (FilterRegex.exec s) as [[[q v] r]|]; [|discriminate].
  destruct (String.eqb q "before").
  - cbn [Controller.beforeDate].
    destruct (DateFns.parse tz v) as [t0|] eqn:E; [|discriminate].
    intros [= <-].
    destruct (typed_date_local_midnight tz v t0 E) as (y & m & d & _ & H).
    now exists y, m, d.
  - destruct (String.eqb q "after"); [discriminate|].
    destruct (String.eqb q "reporter"); discriminate.
Qed.

(** X22: an [afterDate] the parser sets comes from an input that is
    [after:], a token that reads as a calendar day, and a rest; with [t]
    the local midnight of that day, it is the last millisecond of the UTC
    day of [t], and it lies less than a day after [t], never before it. *)
Theorem afterDate_within_a_day (tz : TimeZone) (s : string) (a : Z) :
  Controller.afterDate (Controller.parse tz s) = Some a ->
  exists v r y m d t,
    FilterRegex.exec s = Some ("after"%string, v, r)
    /\ s = ("after:" ++ v ++ r)%string
    /\ DateFns.parseDay v = Some (y, m, d)
    /\ t = daysFromCivil y m d * msPerDay - tz * msPerMinute
    /\ formatDate (t + tz * msPerMinute)
       = Some (fixedDigits 4 y ++ "-" ++ fixedDigits 2 m ++ "-"
               ++ fixedDigits 2 d ++ " 00:00:00")%string
    /\ a = t / msPerDay * msPerDay + (msPerDay - 1)
    /\ a mod msPerDay = msPerDay - 1
    /\ t <= a < t + msPerDay.
Proof.
  unfold Controller.parse.
  destruct (FilterRegex.exec s) as [[[q v] r]|] eqn:Hexec; [|discriminate].
  destruct (String.eqb q "before"); [discriminate|].
  destruct (String.eqb_spec q "after") as [->|_].
  - cbn [Controller.afterDate].
    destruct (DateFns.parse tz v) as [t|] eqn:E; [|discriminate].
    cbn [setUTCHoursEndOfDay]. unfold timeClip.
    destruct (Z.abs _ <=? maxTime); [|discriminate].
    intros [= <-].
    destruct (typed_date_local_midnight tz v t E) as (y & m & d & Hday & _ & Hfmt).
    exists v, r, y, m, d, t.
    split; [reflexivity|].
    split; [exact (exec_split _ _ _ _ Hexec)|].
    split; [exact Hday|].
    split.
    { unfold DateFns.parse in E. rewrite Hday in E.
      unfold localMidnight, timeClip in E.
      destruct (Z.abs _ <=? maxTime); [|discriminate].
      now injection E as <-. }
    split; [exact Hfmt|].
    split; [reflexivity|].
    unfold msPerDay. split; divs.
  - destruct (String.eqb q "reporter"); discriminate.
Qed.

End FormatDateRoundTrip.

Lemma formatDate_same_second_witness :
  IsoDate.formatDate 1709164799001 = IsoDate.formatDate 1709164799999
  <-> 1709164799001 / 1000 = 1709164799999 / 1000.
Proof.
  apply (formatDate_same_second 1709164799001 1709164799999);
    unfold JsDate.maxTime; lia.
Defined.

Lemma formatDate_width_witness :
  exists text,
    IsoDate.formatDate 1709164799001 = Some text
    /\ String.length text = 19%nat.
Proof. apply (formatDate_width 1709164799001). lia. Defined.

Lemma beforeDate_local_midnight_witness :
  exists y m d,
    JsDate.localYearMonth 60 (Some 1709161200000) = Some (y, m)
    /\ IsoDate.formatDate (1709161200000 + 60 * JsDate.msPerMinute)
       = Some (IsoDate.fixedDigits 4 y ++ "-" ++ IsoDate.fixedDigits 2 m ++ "-"
               ++ IsoDate.fixedDigits 2 d ++ " 00:00:00")%string.
Proof.
  apply (beforeDate_local_midnight 60 "before:29/02/2024 xss" 1709161200000).
  reflexivity.
Defined.

Lemma afterDate_within_a_day_witness :
  exists v r y m d t,
    FilterRegex.exec "after:29/02/2024 xss" = Some ("after"%string, v, r)
    /\ "after:29/02/2024 xss"%string = ("after:" ++ v ++ r)%string
    /\ DateFns.parseDay v = Some (y, m, d)
    /\ t = JsDate.daysFromCivil y m d * JsDate.msPerDay - 60 * JsDate.msPerMinute
    /\ IsoDate.formatDate (t + 60 * JsDate.msPerMinute)
       = Some (IsoDate.fixedDigits 4 y ++ "-" ++ IsoDate.fixedDigits 2 m ++ "-"
               ++ IsoDate.fixedDigits 2 d ++ " 00:00:00")%string
    /\ 1709164799999 = t / JsDate.msPerDay * JsDate.msPerDay + (JsDate.msPerDay - 1)
    /\ 1709164799999 mod JsDate.msPerDay = JsDate.msPerDay - 1
    /\ t <= 1709164799999 < t + JsDate.msPerDay.
Proof.
  apply (afterDate_within_a_day 60 "after:29/02/2024 xss" 1709164799999).
  reflexivity.
Defined.


(* ================================================================== *)
(** * When the query has no condition *)
(* ================================================================== *)

Section UnfilteredQuery.
Import Grammar Controller JsDate.

Variable tz : TimeZone.

Lemma alternative_shape (q0 s q v r : string) :
  In q0 FilterRegex.qualifiers ->
  FilterRegex.alternative q0 s = Some (q, v, r) ->
  q = q0 /\ exists c s', s = String c s' /\ isWhiteSpace c = false.
Proof.
  intros Hq0. unfold FilterRegex.alternative.
  destruct (stripPrefix q0 s) as [[|c1 s1]|] eqn:Hp; try discriminate.
  destruct (Ascii.eqb_spec c1 ":"%char) as [->|Hne].
  - destruct (FilterRegex.token s1) as [[v' r']|]; simpl; [|discriminate].
    intros [= <- _ _]. split; [reflexivity|].
    simpl in Hq0. destruct Hq0 as [<-|[<-|[<-|[]]]];
      destruct s as [|c s']; try discriminate Hp;
      cbn [stripPrefix] in Hp;
      match type of Hp with
      | (if Ascii.eqb ?a c then _ else _) = _ =>
          destruct (Ascii.eqb_spec a c) as [<-|]; [|discriminate Hp]
      end; eexists _, _; split; reflexivity.
  - destruct c1 as [[] [] [] [] [] [] [] []]; try discriminate.
    now elim Hne.
Qed.

Lemma exec_shape (s q v r : string) :
  FilterRegex.exec s = Some (q, v, r) ->
  In q FilterRegex.qualifiers
  /\ exists c s', s = String c s' /\ isWhiteSpace c = false.
Proof.
  unfold FilterRegex.exec, FilterRegex.qualifiers. cbn [FilterRegex.firstMatch].
  destruct (FilterRegex.alternative "before" s) as [m|] eqn:E1.
  { intros [= ->]. apply alternative_shape in E1 as [-> H]; simpl; auto. }
  destruct (FilterRegex.alternative "after" s) as [m|] eqn:E2.
  { intros [= ->]. apply alternative_shape in E2 as [-> H]; simpl; auto. }
  destruct (FilterRegex.alternative "reporter" s) as [m|] eqn:E3;
    [|discriminate].
  intros [= ->]. apply alternative_shape in E3 as [-> H]; simpl; auto.
Qed.

Lemma trim_not_empty (c : ascii) (s : string) :
  isWhiteSpace c = false -> trim (String c s) <> EmptyString.
Proof.
  intros Hc. unfold trim. cbn [trimStart]. rewrite Hc, trimEnd_cons, Hc.
  now destruct (trimEnd s).
Qed.

Lemma isEmpty_toLowerCase (s : string) : isEmpty (toLowerCase s) = isEmpty s.
Proof. now destruct s. Qed.

Lemma isEmpty_true (s : string) : isEmpty s = true <-> s = EmptyString.
Proof. destruct s; simpl; split; congruence. Qed.

Lemma whenText_nil (s : string) (c : string -> Query.Clause) :
  Query.whenText (Some s) c = [] <-> s = EmptyString.
Proof.
  unfold Query.whenText. destruct s; simpl; split; congruence.
Qed.

(** Within the offsets time zones have, the end of the UTC day of a typed
    date is a valid instant. *)
Lemma endOfDay_valid (v : string) (t : Z) :
  -1440 <= tz <= 1440 ->
  DateFns.parse tz v = Some t ->
  DateFns.isValid (setUTCHoursEndOfDay (Some t)) = true.
Proof.
  intros Htz. unfold DateFns.parse.
  destruct (DateFns.parseDay v) as [[[y m] d]|] eqn:E; [|discriminate].
  destruct (parseDay_valid v y m d E) as (Hy & Hm & Hd).
  assert (H31 : d <= 31)
    by (destruct (daysInMonth_bounds y m d Hm Hd) as (H31 & _); exact H31).
  pose proof (daysFromCivil_bounds y m d Hy Hm ltac:(lia)) as HD.
  unfold localMidnight, timeClip.
  destruct (Z.abs _ <=? maxTime); [|discriminate].
  intros [= <-]. cbn [setUTCHoursEndOfDay]. unfold timeClip.
  destruct (Z.leb_spec
              (Z.abs ((daysFromCivil y m d * msPerDay - tz * msPerMinute)
                      / msPerDay * msPerDay + (msPerDay - 1))) maxTime);
    [reflexivity|].
  exfalso. unfold msPerDay, msPerMinute, maxTime in *.
  set (D := daysFromCivil y m d) in *. clearbody D.
  Z.to_euclidean_division_equations. lia.
Qed.

Lemma build_nil (sv : string) (b a : option Z) (e : option string) :
  Query.build (mkFilter b a e (Some sv)) = []
  <-> sv = EmptyString /\ b = None /\ a = None
      /\ (e = None \/ e = Some EmptyString).
Proof.
  unfold Query.build, Query.whenText, Query.whenDate.
  cbn [searchValue beforeDate afterDate reporterEmail].
  destruct sv, b, a, e as [[|]|]; simpl; split;
    try discriminate; try (intros (? & ? & ? & [?|?]); discriminate);
    try (intros (? & ? & ? & ?); discriminate); auto.
Qed.

Lemma toLowerCase_empty (s : string) :
  toLowerCase s = EmptyString <-> s = EmptyString.
Proof. destruct s; simpl; split; congruence. Qed.

(** X11: within the offsets time zones have, the query has no condition at
    all, so that every ticket is listed, in two cases only: the search
    text is blank, or it is a [before:] or [after:] qualifier whose token is
    not a date, with nothing but blanks behind it. *)
Theorem query_unfiltered_iff (s : string) :
  -1440 <= tz <= 1440 ->
  (Query.build (parse tz s) = []
   <-> trim s = EmptyString
       \/ exists q v r,
            FilterRegex.exec s = Some (q, v, r)
            /\ (q = "before" \/ q = "after")%string
            /\ DateFns.isValid (DateFns.parse tz v) = false
            /\ trim r = EmptyString).
Proof.
  intros Htz. unfold parse.
  destruct (FilterRegex.exec s) as [[[q v] r]|] eqn:E.
  - destruct (exec_shape s q v r E) as [Hq (c & s' & -> & Hc)].
    pose proof (trim_not_empty c s' Hc) as Hne.
    pose proof (exec_isToken _ q v r E) as Hv.
    simpl in Hq.
    destruct Hq as [<-|[<-|[<-|[]]]]; cbn [String.eqb Ascii.eqb Bool.eqb];
      rewrite build_nil, toLowerCase_empty.
    + destruct (DateFns.parse tz v) as [t|] eqn:Ev; cbn [DateFns.isValid].
      * split; [intros (_ & Hd & _); discriminate Hd|].
        intros [H|(q' & v' & r' & [= <- <- <-] & _ & Hbad & _)];
          [contradiction|]. rewrite Ev in Hbad. discriminate Hbad.
      * split.
        -- intros (Hr & _). right. exists "before"%string, v, r.
           rewrite Ev. repeat split; auto.
        -- intros [H|(q' & v' & r' & [= <- <- <-] & _ & _ & Hr)];
             [contradiction|]. repeat split; auto.
    + destruct (DateFns.parse tz v) as [t|] eqn:Ev.
      * pose proof (endOfDay_valid v t Htz Ev) as Hok.
        destruct (setUTCHoursEndOfDay (Some t)) as [a|]; [|discriminate Hok].
        cbn [DateFns.isValid].
        split; [intros (_ & _ & Ha & _); discriminate Ha|].
        intros [H|(q' & v' & r' & [= <- <- <-] & _ & Hbad & _)];
          [contradiction|]. rewrite Ev in Hbad. discriminate Hbad.
      * cbn [setUTCHoursEndOfDay DateFns.isValid]. split.
        -- intros (Hr & _). right. exists "after"%string, v, r.
           rewrite Ev. repeat split; auto.
        -- intros [H|(q' & v' & r' & [= <- <- <-] & _ & _ & Hr)];
             [contradiction|]. repeat split; auto.
    + split.
      * intros (_ & _ & _ & [He|He]); [discriminate He|].
        injection He as He. apply (proj1 (toLowerCase_empty _)) in He.
        unfold isToken in Hv. apply andb_true_iff in Hv as [Hv1 Hv2].
        rewrite (trim_noBlank v Hv2) in He. subst v. discriminate Hv1.
      * intros [H|(q' & v' & r' & [= <- <- <-] & [Hq|Hq] & _)];
          [contradiction | discriminate Hq | discriminate Hq].
  - rewrite build_nil, toLowerCase_empty. split.
    + intros (H & _). now left.
    + intros [H|(q' & v' & r' & He & _)]; [auto | discriminate He].
Qed.

End UnfilteredQuery.

Lemma query_unfiltered_iff_witness :
  Query.build (Controller.parse 60 "after:tomorrow") = []
  <-> trim "after:tomorrow" = EmptyString
      \/ exists q v r,
           FilterRegex.exec "after:tomorrow" = Some (q, v, r)
           /\ (q = "before" \/ q = "after")%string
           /\ DateFns.isValid (DateFns.parse 60 v) = false
           /\ trim r = EmptyString.
Proof. apply (query_unfiltered_iff 60 "after:tomorrow"). lia. Defined.
